(** * WriteOff: the deductibility response parser and the bank ingestion loop

    A shallow embedding of
    - [src/lib/openai/analysis.ts] ([analyzeTransactionDeductibility],
      [analyzeAllTransactions]),
    - the bank module ([fetchTransactions], [getAccountBalances],
      [getInstitutionInfo]) and
    - [src/lib/database/users.ts] ([getUser]),
    followed by the properties the specification states about them.

    JavaScript strings are sequences of UTF-16 code units, regular
    expressions are run by a backtracking matcher with the priorities of
    ECMAScript (leftmost start, ordered alternatives, greedy and lazy
    quantifiers, capture groups), and asynchronous calls to the three external
    services are calls to an environment that sees the history of earlier
    calls and may answer or throw. *)

From Stdlib Require Import String Ascii.
From Stdlib Require Import List Bool Arith NArith ZArith QArith Qabs Lia.
Import ListNotations.

Set Implicit Arguments.
Close Scope Q_scope.

(* ------------------------------------------------------------------ *)
(** ** JavaScript strings and numbers *)
(* ------------------------------------------------------------------ *)

Module JS.

(** A string is its sequence of UTF-16 code units. *)
Definition code_unit := N.
Definition jsstring := list code_unit.

(** A literal of the source, written as a Rocq string. *)
Definition js (s : String.string) : jsstring :=
  map N_of_ascii (String.list_ascii_of_string s).
Arguments js s%_string.

Local Open Scope N_scope.

Definition str_eqb (a b : jsstring) : bool :=
  if list_eq_dec N.eq_dec a b then true else false.

Definition between (lo hi c : code_unit) : bool :=
  (N.leb lo c && N.leb c hi)%bool.

(** [\d]: the ten ASCII digits. *)
Definition is_digit (c : code_unit) : bool := between 48 57 c.

(** [\w]: ASCII letters, digits and the underscore. *)
Definition is_word (c : code_unit) : bool :=
  (between 97 122 c || between 65 90 c || is_digit c || N.eqb c 95)%bool.

(** Line terminators: LF, CR, LS, PS. *)
Definition is_line_terminator (c : code_unit) : bool :=
  existsb (N.eqb c) [10; 13; 8232; 8233]%N.

(** [\s], also what [trim] strips and [parseInt] skips: ECMAScript
    WhiteSpace (TAB, VT, FF, SP, NBSP, ZWNBSP and the space separators)
    and the line terminators. *)
Definition is_space (c : code_unit) : bool :=
  (existsb (N.eqb c) [9; 11; 12; 32; 160; 5760; 8239; 8287; 12288; 65279]%N
   || between 8192 8202 c
   || is_line_terminator c)%bool.

(** [.] without the [s] flag: anything but a line terminator. *)
Definition is_dot (c : code_unit) : bool := negb (is_line_terminator c).

Definition ascii_upper (c : code_unit) : code_unit :=
  if between 97 122 c then (c - 32)%N else c.

(** Matching of a pattern character [p] under the [i] flag.  ECMAScript
    canonicalises both sides with [toUpperCase] and keeps a code unit of 128
    or above unchanged when its upper case is below 128, so an ASCII pattern
    letter matches its two ASCII cases and nothing else. *)
Definition ci_match (p c : code_unit) : bool :=
  N.eqb (ascii_upper c) (ascii_upper p).

Fixpoint trimStart (s : jsstring) : jsstring :=
  match s with
  | c :: tl => if is_space c then trimStart tl else s
  | [] => []
  end.

Definition trimEnd (s : jsstring) : jsstring := rev (trimStart (rev s)).

(** [String.prototype.trim]. *)
Definition trim (s : jsstring) : jsstring := trimEnd (trimStart s).

(** Numbers: [NaN] or a finite value.  Every finite value the modelled code
    computes is an integer of at most three digits or such an integer
    divided by 100; IEEE division is correctly rounded and monotone, and 0
    and 1 are doubles, so equalities with a decimal literal and bounds
    proved on the rationals hold of the doubles. *)
Inductive jsnum :=
| NaN
| Fin (q : Q).

Definition Math_max (a b : jsnum) : jsnum :=
  match a, b with
  | Fin x, Fin y => Fin (if Qle_bool x y then y else x)
  | _, _ => NaN
  end.

Definition Math_min (a b : jsnum) : jsnum :=
  match a, b with
  | Fin x, Fin y => Fin (if Qle_bool x y then x else y)
  | _, _ => NaN
  end.

(** [a / 100], the only division of the modelled code. *)
Definition num_div100 (a : jsnum) : jsnum :=
  match a with
  | Fin x => Fin (x / inject_Z 100)%Q
  | NaN => NaN
  end.

Definition num_of_Z (z : Z) : jsnum := Fin (inject_Z z).

(** Truthiness of a number: [NaN] and zero are falsy. *)
Definition num_truthy (x : jsnum) : bool :=
  match x with
  | NaN => false
  | Fin q => negb (Qeq_bool q 0%Q)
  end.

(** [x] is the finite number [q]. *)
Definition is_num (x : jsnum) (q : Q) : Prop :=
  match x with
  | NaN => False
  | Fin p => (p == q)%Q
  end.

Definition digit_value (c : code_unit) : Z := Z.of_N (c - 48).

(** The longest prefix of decimal digits, read as a number in base ten;
    [acc] is the value read so far. *)
Fixpoint digits_prefix (s : jsstring) (acc : Z) (seen : bool) : option Z :=
  match s with
  | c :: tl =>
      if is_digit c then digits_prefix tl (10 * acc + digit_value c)%Z true
      else if seen then Some acc else None
  | [] => if seen then Some acc else None
  end.

(** [parseInt(s, 10)]: skip leading white space, read an optional sign, then
    the longest digit prefix; [NaN] when there is no digit. *)
Definition parseInt10 (s : jsstring) : jsnum :=
  match trimStart s with
  | c :: tl =>
      if N.eqb c 45 then
        match digits_prefix tl 0 false with
        | Some z => num_of_Z (- z)
        | None => NaN
        end
      else if N.eqb c 43 then
        match digits_prefix tl 0 false with
        | Some z => num_of_Z z
        | None => NaN
        end
      else
        match digits_prefix (c :: tl) 0 false with
        | Some z => num_of_Z z
        | None => NaN
        end
  | [] => NaN
  end.

(** [parseInt(m[i], 10)] for a capture that may be [undefined]: the argument
    is first converted to the string "undefined", which has no digit. *)
Definition parseInt10_capture (o : option jsstring) : jsnum :=
  match o with
  | Some s => parseInt10 s
  | None => NaN
  end.

End JS.

(* ------------------------------------------------------------------ *)
(** ** Regular expressions *)
(* ------------------------------------------------------------------ *)

Module Regex.
Import JS.

(** The fragment of ECMAScript patterns the source uses.  Every quantified
    atom of the source is a single character class, so [Rep] quantifies
    a class: [Rep p lo hi greedy] is [p{lo,hi}], or [p{lo,}] when [hi] is
    [None], lazy when [greedy] is [false]. *)
Inductive regex :=
| Empty
| Char (p : code_unit -> bool)
| Cat (r1 r2 : regex)
| Or (r1 r2 : regex)
| Rep (p : code_unit -> bool) (lo : nat) (hi : option nat) (greedy : bool)
| Cap (n : nat) (r : regex)
| Bol
| WordB.

Definition cat_all (rs : list regex) : regex := fold_right Cat Empty rs.

(** A literal word, matched code unit by code unit under the [i] flag. *)
Definition lit_ci (s : String.string) : regex :=
  cat_all (map (fun p => Char (ci_match p)) (js s)).

Definition one (c : code_unit) : regex := Char (N.eqb c).

(** A matcher state: the input already passed (most recent first), the input
    still ahead, and the captures recorded so far (most recent first). *)
Record mstate := MState {
  prev : jsstring;
  rest : jsstring;
  caps : list (nat * jsstring)
}.

(** What was read between an earlier state [a] and a later state [b]. *)
Definition consumed (a b : mstate) : jsstring :=
  firstn (length (rest a) - length (rest b)) (rest a).

Definition set_cap (n : nat) (w : jsstring) (st : mstate) : mstate :=
  MState (prev st) (rest st) ((n, w) :: caps st).

Fixpoint lookup_cap (n : nat) (l : list (nat * jsstring)) : option jsstring :=
  match l with
  | (k, w) :: tl => if Nat.eqb k n then Some w else lookup_cap n tl
  | [] => None
  end.

(** [m[n]] of a successful match. *)
Definition capture (n : nat) (st : mstate) : option jsstring :=
  lookup_cap n (caps st).

Definition hi_allows (hi : option nat) : bool :=
  match hi with
  | Some O => false
  | _ => true
  end.

Definition hi_pred (hi : option nat) : option nat :=
  match hi with
  | Some h => Some (Nat.pred h)
  | None => None
  end.

Section Matcher.
Variable R : Type.

(** The quantifier: a greedy one tries one more character first and stops
    only when that fails; a lazy one tries to stop first. *)
Fixpoint rep (p : code_unit -> bool) (greedy : bool) (lo : nat)
    (hi : option nat) (pv rs : jsstring)
    (k : jsstring -> jsstring -> option R) {struct rs} : option R :=
  let more :=
    fun _ : unit =>
      if hi_allows hi then
        match rs with
        | c :: tl =>
            if p c then rep p greedy (Nat.pred lo) (hi_pred hi) (c :: pv) tl k
            else None
        | [] => None
        end
      else None in
  match lo with
  | S _ => more tt
  | O =>
      if greedy then
        match more tt with
        | Some x => Some x
        | None => k pv rs
        end
      else
        match k pv rs with
        | Some x => Some x
        | None => more tt
        end
  end.

(** [\b]: exactly one of the code units around the position is a word
    character. *)
Definition at_word_boundary (st : mstate) : bool :=
  xorb (match prev st with c :: _ => is_word c | [] => false end)
       (match rest st with c :: _ => is_word c | [] => false end).

(** The backtracking matcher, in continuation-passing style: [k] is the rest
    of the pattern, and a [None] from it makes the matcher try its next
    choice. *)
Fixpoint rmatch (r : regex) (st : mstate) (k : mstate -> option R)
    {struct r} : option R :=
  match r with
  | Empty => k st
  | Char p =>
      match rest st with
      | c :: tl => if p c then k (MState (c :: prev st) tl (caps st)) else None
      | [] => None
      end
  | Cat r1 r2 => rmatch r1 st (fun mid => rmatch r2 mid k)
  | Or r1 r2 =>
      match rmatch r1 st k with
      | Some x => Some x
      | None => rmatch r2 st k
      end
  | Rep p lo hi greedy =>
      rep p greedy lo hi (prev st) (rest st)
          (fun pv rs => k (MState pv rs (caps st)))
  | Cap n body =>
      rmatch body st (fun st' => k (set_cap n (consumed st st') st'))
  | Bol => match prev st with [] => k st | _ :: _ => None end
  | WordB => if at_word_boundary st then k st else None
  end.

End Matcher.

(** [String.prototype.match] and [RegExp.prototype.exec] without the [g]
    flag: the first start position, from the left, at which the pattern
    matches. *)
Fixpoint search_from (r : regex) (pv rs : jsstring) : option mstate :=
  match rmatch r (MState pv rs []) (fun st => Some st) with
  | Some st => Some st
  | None =>
      match rs with
      | c :: tl => search_from r (c :: pv) tl
      | [] => None
      end
  end.

Definition exec (r : regex) (s : jsstring) : option mstate :=
  search_from r [] s.

(** [RegExp.prototype.test]. *)
Definition test (r : regex) (s : jsstring) : bool :=
  match exec r s with
  | Some _ => true
  | None => false
  end.

End Regex.

(* ------------------------------------------------------------------ *)
(** ** The response parser of [analyzeTransactionDeductibility] *)
(* ------------------------------------------------------------------ *)

Module Parser.
Import JS Regex.

Definition comma : code_unit := 44%N.
Definition percent : code_unit := 37%N.

(** [[,\s]] *)
Definition is_sep (c : code_unit) : bool := (N.eqb c comma || is_space c)%bool.

(** [[^,]] *)
Definition not_comma (c : code_unit) : bool := negb (N.eqb c comma).

(** [/^yes\b/i] *)
Definition re_yes : regex := cat_all [Bol; lit_ci "yes"; WordB].

(** [/^(yes|no)[,\s]+(.+?)[,\s]+(\d{1,3})%/i] *)
Definition re_strict : regex :=
  cat_all
    [Bol;
     Cap 1 (Or (lit_ci "yes") (lit_ci "no"));
     Rep is_sep 1 None true;
     Cap 2 (Rep is_dot 1 None false);
     Rep is_sep 1 None true;
     Cap 3 (Rep is_digit 1 (Some 3) true);
     one percent].

(** [/(\d{1,3})\s*%/] *)
Definition re_score : regex :=
  cat_all
    [Cap 1 (Rep is_digit 1 (Some 3) true);
     Rep is_space 0 None true;
     one percent].

(** [/^[^,]+,\s*(.+?),\s*\d{1,3}%/] *)
Definition re_reason : regex :=
  cat_all
    [Bol;
     Rep not_comma 1 None true;
     one comma;
     Rep is_space 0 None true;
     Cap 1 (Rep is_dot 1 None false);
     one comma;
     Rep is_space 0 None true;
     Rep is_digit 1 (Some 3) true;
     one percent].

(** The verdict returned next to [success: true]; a [None] score is
    [null]. *)
Record verdict := Verdict {
  is_deductible : bool;
  deductible_reason : jsstring;
  deduction_score : option jsnum
}.

(** [Math.min(100, Math.max(0, parseInt(m[i], 10))) / 100] *)
Definition score_of_capture (o : option jsstring) : jsnum :=
  num_div100
    (Math_min (num_of_Z 100) (Math_max (num_of_Z 0) (parseInt10_capture o))).

(** [const isYes = /^yes\b/i.test(content.trim())] *)
Definition isYes (content : jsstring) : bool := test re_yes (trim content).

Section Capitalize.

(** [String.prototype.toUpperCase] on a single code unit outside ASCII: the
    Unicode case table of the platform, which may answer with several code
    units. *)
Variable unicode_upper : code_unit -> jsstring.

Definition toUpperCase1 (c : code_unit) : jsstring :=
  if N.ltb c 128 then [ascii_upper c] else unicode_upper c.

(** [reason.charAt(0).toUpperCase() + reason.slice(1)], done when the reason
    is not empty. *)
Definition capitalize (reason : jsstring) : jsstring :=
  match reason with
  | c :: tl => toUpperCase1 c ++ tl
  | [] => []
  end.

(** The reason and the score before capitalisation, lines 47 to 60.  [None]
    is the [TypeError] of calling [trim] on a capture that is [undefined]. *)
Definition extract (content : jsstring) : option (jsstring * option jsnum) :=
  match exec re_strict content with
  | Some m =>
      match capture 2 m with
      | Some r => Some (trim r, Some (score_of_capture (capture 3 m)))
      | None => None
      end
  | None =>
      let deduction_score :=
        match exec re_score content with
        | Some scoreMatch => Some (score_of_capture (capture 1 scoreMatch))
        | None => None
        end in
      match exec re_reason content with
      | Some reasonMatch =>
          match capture 1 reasonMatch with
          | Some r => Some (trim r, deduction_score)
          | None => None
          end
      | None => Some (js "No reason provided", deduction_score)
      end
  end.

(** Lines 46 to 71 of [analyzeTransactionDeductibility]: from the text of
    the completion to the verdict. *)
Definition parse_response (content : jsstring) : option verdict :=
  match extract content with
  | Some (reason, deduction_score) =>
      Some (Verdict (isYes content) (capitalize reason) deduction_score)
  | None => None
  end.

End Capitalize.

End Parser.

(* ------------------------------------------------------------------ *)
(** ** Calls to the external services *)
(* ------------------------------------------------------------------ *)

Module Services.
Import JS Parser.

(** A thrown value: an [Error] with its message, or anything else. *)
Inductive thrown :=
| ErrorObject (message : jsstring)
| OtherValue (shown : jsstring).

Inductive outcome (A : Type) :=
| Returned (a : A)
| Thrown (e : thrown).
Arguments Returned {A} a.
Arguments Thrown {A} e.

(** The [{ data, error }] a storage query resolves to. *)
Record db_result (A : Type) := DbResult {
  data : option A;
  error : option jsstring
}.

(** A row of [users]; the profile columns play no part here. *)
Record user := User {
  id : jsstring;
  plaid_token : option jsstring
}.

Record account_row := AccountRow {
  acc_account_id : jsstring;
  acc_user_id : jsstring
}.

(** An account and a transaction as the bank API lists them. *)
Record plaid_account := PlaidAccount {
  account_id : jsstring
}.

Record plaid_transaction := PlaidTransaction {
  transaction_id : jsstring;
  date : jsstring;
  amount : Q;
  merchant_name : option jsstring;
  category : option (list jsstring)
}.

Record transactions_response := TransactionsResponse {
  transactions : list plaid_transaction;
  request_id : option jsstring
}.

(** The four fields [analyzeTransactionDeductibility] puts in its prompt. *)
Record prompt_fields := PromptFields {
  pf_merchant_name : jsstring;
  pf_amount : Q;
  pf_category : jsstring;
  pf_date : jsstring
}.

(** [transactionData], the argument of [addTransaction].  The three
    classification fields are absent ([None]) until assigned; an assigned
    score may be [null] ([Some None]). *)
Record transaction_row := TransactionRow {
  row_trans_id : jsstring;
  row_account_id : jsstring;
  row_date : jsstring;
  row_amount : Q;
  row_merchant_name : jsstring;
  row_category : jsstring;
  row_is_deductible : option bool;
  row_deductible_reason : option jsstring;
  row_deduction_score : option (option jsnum)
}.

(** The [updates] object [analyzeAllTransactions] passes to
    [updateTransaction]; [None] is a property whose value is [undefined]. *)
Record transaction_updates := TransactionUpdates {
  upd_is_deductible : option bool;
  upd_deductible_reason : option jsstring;
  upd_deduction_score : option jsnum
}.

(** One call that leaves the process. *)
Inductive call :=
| ServerUsersSelect (userId : jsstring)
| ClientUsersSelect (userId : jsstring)
| GetAccounts (userId : jsstring)
| AddAccount (row : account_row)
| UpdateAccount (accountId last_cursor : jsstring)
| AddTransaction (row : transaction_row)
| UpdateTransaction (transactionId : jsstring) (updates : transaction_updates)
| PlaidAccountsGet (access_token : jsstring)
| PlaidTransactionsGet (access_token accountId : jsstring)
| PlaidItemGet (access_token : jsstring)
| PlaidInstitutionsGetById (institution_id : jsstring)
| ChatCompletion (transaction : prompt_fields).

(** The calls made so far, the most recent first. *)
Definition history := list call.

(** The world outside: whether a call throws, and what it answers when it
    does not; both may depend on everything done before.  A call also counts
    as throwing when reading the field the caller wants off its answer
    throws (as [response.choices[0].message] does on an empty [choices]).
    [institution] is the type of the institution record of the bank API. *)
Record Env (institution : Type) := {
  throws : history -> call -> option thrown;
  server_user : history -> jsstring -> db_result user;
  client_user : history -> jsstring -> db_result user;
  stored_accounts : history -> jsstring -> db_result (list account_row);
  bank_accounts : history -> jsstring -> list plaid_account;
  bank_transactions : history -> jsstring -> jsstring -> transactions_response;
  bank_item_institution : history -> jsstring -> option jsstring;
  bank_institution : history -> jsstring -> institution;
  completion_content : history -> prompt_fields -> option jsstring
}.

(** An asynchronous computation, awaited in sequence: from the history it
    starts in to its outcome and the history it leaves. *)
Definition M (A : Type) : Type := history -> outcome A * history.

Definition ret {A} (a : A) : M A := fun h => (Returned a, h).

Definition throw {A} (e : thrown) : M A := fun h => (Thrown e, h).

Definition bind {A B} (m : M A) (f : A -> M B) : M B :=
  fun h =>
    match m h with
    | (Returned a, h') => f a h'
    | (Thrown e, h') => (Thrown e, h')
    end.

(** [try { m } catch (e) { handler e }] *)
Definition try_catch {A} (m : M A) (handler : thrown -> M A) : M A :=
  fun h =>
    match m h with
    | (Returned a, h') => (Returned a, h')
    | (Thrown e, h') => handler e h'
    end.

(** The outcome of [m] as a value: what a [try] sees. *)
Definition attempt {A} (m : M A) : M (outcome A) :=
  fun h => let (o, h') := m h in (Returned o, h').

Declare Scope js_scope.
Delimit Scope js_scope with js.
Notation "x <- m ;; k" := (bind m (fun x => k))
  (at level 61, m at next level, right associativity) : js_scope.
Notation "m ;; k" := (bind m (fun _ => k))
  (at level 61, right associativity) : js_scope.
Bind Scope js_scope with M.

(** [for (const x of l) { await f x }] *)
Fixpoint for_of {A} (l : list A) (f : A -> M unit) : M unit :=
  match l with
  | [] => ret tt
  | x :: tl => (f x ;; for_of tl f)%js
  end.

(** A [for ... of] that updates one local variable. *)
Fixpoint for_of_acc {A B} (l : list A) (f : B -> A -> M B) (b : B) : M B :=
  match l with
  | [] => ret b
  | x :: tl => (b' <- f b x ;; for_of_acc tl f b')%js
  end.

Section Calls.
Variable institution : Type.
Variable env : Env institution.

(** Make the call [c]; it is recorded whether it answers or throws. *)
Definition perform {A} (c : call) (answer : history -> A) : M A :=
  fun h =>
    match throws env h c with
    | Some e => (Thrown e, c :: h)
    | None => (Returned (answer h), c :: h)
    end.

(** A call whose answer the caller drops. *)
Definition perform_ (c : call) : M unit := perform c (fun _ => tt).

End Calls.

(** What a function of the bank module or of the analysis module resolves
    to: [{ success: true, ... }] or [{ success: false, error }], where the
    error is a message or the caught value itself. *)
Inductive failure :=
| Message (text : jsstring)
| Caught (e : thrown).

Inductive result (A : Type) :=
| Success (a : A)
| Failure (error : failure).
Arguments Success {A} a.
Arguments Failure {A} error.

(** A string that is present and not empty. *)
Definition truthy_string (o : option jsstring) : option jsstring :=
  match o with
  | Some (c :: tl) => Some (c :: tl)
  | _ => None
  end.

End Services.

(* ------------------------------------------------------------------ *)
(** ** [src/lib/database/users.ts] *)
(* ------------------------------------------------------------------ *)

Module Users.
Import JS Services.

Section WithEnv.
Variable institution : Type.
Variable env : Env institution.

Definition is_some {A} (o : option A) : bool :=
  match o with
  | Some _ => true
  | None => false
  end.

(** [getUser]: the server-side client first; its result is returned when it
    has data or no error; when it has neither, or when it throws, the
    module's own client is asked. *)
Definition getUser (userId : jsstring) : M (db_result user) :=
  let regular :=
    perform env (ClientUsersSelect userId)
            (fun h => client_user env h userId) in
  (server <- attempt (perform env (ServerUsersSelect userId)
                              (fun h => server_user env h userId)) ;;
   match server with
   | Returned serverResult =>
       if (is_some (data serverResult)
           || negb (is_some (error serverResult)))%bool
       then ret serverResult
       else regular
   | Thrown _ => regular
   end)%js.

End WithEnv.
End Users.

(* ------------------------------------------------------------------ *)
(** ** [src/lib/openai/analysis.ts] *)
(* ------------------------------------------------------------------ *)

Module Analysis.
Import JS Parser Services.

Section WithEnv.
Variable unicode_upper : code_unit -> jsstring.
Variable institution : Type.
Variable env : Env institution.

(** The [TypeError] raised by [m[2].trim()] on a capture that is
    [undefined]. *)
Definition trim_of_undefined : thrown :=
  ErrorObject (js "Cannot read properties of undefined (reading 'trim')").

(** [response.choices[0].message.content || ''] *)
Definition content_or_empty (message_content : option jsstring) : jsstring :=
  match message_content with
  | Some s => s
  | None => []
  end.

(** [analyzeTransactionDeductibility]: one completion call, whose content
    ([''] when it is [null]) is parsed; anything thrown inside the [try] is
    returned as [{ success: false, error }]. *)
Definition analyzeTransactionDeductibility (transaction : prompt_fields)
  : M (result verdict) :=
  try_catch
    (message_content <- perform env (ChatCompletion transaction)
                          (fun h => completion_content env h transaction) ;;
     let content := content_or_empty message_content in
     match parse_response unicode_upper content with
     | Some v => ret (Success v)
     | None => throw trim_of_undefined
     end)%js
    (fun e => ret (Failure (Caught e))).

(** [analysis.deduction_score || undefined] *)
Definition score_or_undefined (s : option jsnum) : option jsnum :=
  match s with
  | Some x => if num_truthy x then Some x else None
  | None => None
  end.

(** The object literal of lines 88 to 92. *)
Definition updates_of (analysis : verdict) : transaction_updates :=
  {| upd_is_deductible := Some (is_deductible analysis);
     upd_deductible_reason := Some (deductible_reason analysis);
     upd_deduction_score := score_or_undefined (deduction_score analysis) |}.

Definition prompt_of_row (t : transaction_row) : prompt_fields :=
  {| pf_merchant_name := row_merchant_name t;
     pf_amount := row_amount t;
     pf_category := row_category t;
     pf_date := row_date t |}.

(** The callback [analyzeAllTransactions] maps over the stored
    transactions (lines 85 to 95).  [Promise.all] runs the callbacks
    interleaved; what one callback does is the same under every
    interleaving up to the histories its two calls see. *)
Definition analyzeAllTransactions_callback (transaction : transaction_row)
  : M (result verdict) :=
  (analysis <- analyzeTransactionDeductibility (prompt_of_row transaction) ;;
   match analysis with
   | Success v =>
       perform_ env (UpdateTransaction (row_trans_id transaction)
                                       (updates_of v)) ;;
       ret analysis
   | Failure _ => ret analysis
   end)%js.

End WithEnv.

(** What the storage service does with the [updates] of an
    [updateTransaction]: the request body is JSON, in which a property whose
    value is [undefined] does not appear, and only the columns that appear
    are set. *)
Definition apply_updates (u : transaction_updates) (t : transaction_row)
  : transaction_row :=
  {| row_trans_id := row_trans_id t;
     row_account_id := row_account_id t;
     row_date := row_date t;
     row_amount := row_amount t;
     row_merchant_name := row_merchant_name t;
     row_category := row_category t;
     row_is_deductible :=
       match upd_is_deductible u with
       | Some b => Some b
       | None => row_is_deductible t
       end;
     row_deductible_reason :=
       match upd_deductible_reason u with
       | Some r => Some r
       | None => row_deductible_reason t
       end;
     row_deduction_score :=
       match upd_deduction_score u with
       | Some x => Some (Some x)
       | None => row_deduction_score t
       end |}.

End Analysis.

(* ------------------------------------------------------------------ *)
(** ** The bank module: [fetchTransactions] and its siblings *)
(* ------------------------------------------------------------------ *)

Module Plaid.
Import JS Parser Services Users.

(** [Array.prototype.join] with the separator [', ']. *)
Fixpoint join_comma (l : list jsstring) : jsstring :=
  match l with
  | [] => []
  | [x] => x
  | x :: tl => x ++ js ", " ++ join_comma tl
  end.

(** [s || fallback] for a string that may be missing. *)
Definition or_default (o : option jsstring) (fallback : jsstring) : jsstring :=
  match truthy_string o with
  | Some s => s
  | None => fallback
  end.

(** The object literal of lines 62 to 69. *)
Definition transactionData_of (accountId : jsstring) (txn : plaid_transaction)
  : transaction_row :=
  {| row_trans_id := transaction_id txn;
     row_account_id := accountId;
     row_date := date txn;
     row_amount := Qabs (amount txn);
     row_merchant_name := or_default (merchant_name txn) (js "Unknown Merchant");
     row_category :=
       or_default (option_map join_comma (category txn)) (js "Uncategorized");
     row_is_deductible := None;
     row_deductible_reason := None;
     row_deduction_score := None |}.

(** [Object.assign(transactionData, { is_deductible, deductible_reason,
    deduction_score })] *)
Definition assign_verdict (t : transaction_row) (d : bool) (reason : jsstring)
    (score : option jsnum) : transaction_row :=
  {| row_trans_id := row_trans_id t;
     row_account_id := row_account_id t;
     row_date := row_date t;
     row_amount := row_amount t;
     row_merchant_name := row_merchant_name t;
     row_category := row_category t;
     row_is_deductible := Some d;
     row_deductible_reason := Some reason;
     row_deduction_score := Some score |}.

(** Lines 74 to 108: the three ways the [try] around the classification
    ends. *)
Definition with_analysis (t : transaction_row) (o : outcome (result verdict))
  : transaction_row :=
  match o with
  | Returned (Success analysis) =>
      assign_verdict t (is_deductible analysis) (deductible_reason analysis)
                     (deduction_score analysis)
  | Returned (Failure _) =>
      assign_verdict t false (js "Analysis failed - requires manual review")
                     (Some (num_of_Z 0))
  | Thrown _ =>
      assign_verdict t false (js "Analysis error - requires manual review")
                     (Some (num_of_Z 0))
  end.

Definition prompt_of (t : transaction_row) : prompt_fields :=
  {| pf_merchant_name := row_merchant_name t;
     pf_amount := row_amount t;
     pf_category := row_category t;
     pf_date := row_date t |}.

(** [!user?.plaid_token] is false: the token, when the user exists and the
    token is a non-empty string. *)
Definition token_of (u : option user) : option jsstring :=
  match u with
  | Some usr => truthy_string (plaid_token usr)
  | None => None
  end.

(** [error instanceof Error ? error.message : 'Unknown error'] *)
Definition message_of (e : thrown) : jsstring :=
  match e with
  | ErrorObject m => m
  | OtherValue _ => js "Unknown error"
  end.

Section WithEnv.
Variable institution : Type.
Variable env : Env institution.

(** The classifier [fetchTransactions] awaits for each transaction; the
    module imports [analyzeTransactionDeductibility] for it. *)
Variable analyze : prompt_fields -> M (result verdict).

(** The body of the loop over the transactions of one account, lines 61 to
    112: classify inside a [try], then persist. *)
Definition store_transaction (accountId : jsstring) (txn : plaid_transaction)
  : M unit :=
  let transactionData := transactionData_of accountId txn in
  (o <- attempt (analyze (prompt_of transactionData)) ;;
   perform_ env (AddTransaction (with_analysis transactionData o)))%js.

(** The body of the first loop over the accounts, lines 33 to 43. *)
Definition ensure_account (userId : jsstring) (account : plaid_account)
  : M unit :=
  (existingAccount <- perform env (GetAccounts userId)
                        (fun h => stored_accounts env h userId) ;;
   let accountExists :=
     match data existingAccount with
     | Some rows =>
         existsb (fun acc => str_eqb (acc_account_id acc) (account_id account))
                 rows
     | None => false
     end in
   if accountExists then ret tt
   else perform_ env (AddAccount (AccountRow (account_id account) userId)))%js.

(** The body of the second loop over the accounts, lines 48 to 122, with the
    running [totalTransactions] as accumulator.  The date window of the
    request is read off the clock and is part of what the history-dependent
    answer of the bank stands for. *)
Definition fetch_account (token : jsstring) (totalTransactions : nat)
    (account : plaid_account) : M nat :=
  (transactionsResponse <-
     perform env (PlaidTransactionsGet token (account_id account))
             (fun h => bank_transactions env h token (account_id account)) ;;
   for_of (transactions transactionsResponse)
          (store_transaction (account_id account)) ;;
   match truthy_string (request_id transactionsResponse) with
   | Some cursor => perform_ env (UpdateAccount (account_id account) cursor)
   | None => ret tt
   end ;;
   ret (totalTransactions + length (transactions transactionsResponse)))%js.

(** [fetchTransactions] with the classifier [analyze]. *)
Definition fetchTransactions_with (userId : jsstring) : M (result nat) :=
  try_catch
    (r <- getUser env userId ;;
     match token_of (data r) with
     | None => ret (Failure (Message (js "No Plaid token found")))
     | Some token =>
         plaidAccounts <- perform env (PlaidAccountsGet token)
                            (fun h => bank_accounts env h token) ;;
         for_of plaidAccounts (ensure_account userId) ;;
         totalTransactions <-
           for_of_acc plaidAccounts (fetch_account token) 0 ;;
         ret (Success totalTransactions)
     end)%js
    (fun e => ret (Failure (Message (message_of e)))).

(** [getAccountBalances] *)
Definition getAccountBalances (userId : jsstring)
  : M (result (list plaid_account)) :=
  try_catch
    (r <- getUser env userId ;;
     match token_of (data r) with
     | None => ret (Failure (Message (js "No Plaid token found")))
     | Some token =>
         accounts <- perform env (PlaidAccountsGet token)
                       (fun h => bank_accounts env h token) ;;
         ret (Success accounts)
     end)%js
    (fun e => ret (Failure (Caught e))).

(** [getInstitutionInfo] *)
Definition getInstitutionInfo (userId : jsstring) : M (result institution) :=
  try_catch
    (r <- getUser env userId ;;
     match token_of (data r) with
     | None => ret (Failure (Message (js "No Plaid token found")))
     | Some token =>
         item_institution_id <-
           perform env (PlaidItemGet token)
                   (fun h => bank_item_institution env h token) ;;
         match truthy_string item_institution_id with
         | None => ret (Failure (Message (js "No institution ID found")))
         | Some institution_id =>
             inst <- perform env (PlaidInstitutionsGetById institution_id)
                       (fun h => bank_institution env h institution_id) ;;
             ret (Success inst)
         end
     end)%js
    (fun e => ret (Failure (Caught e))).

End WithEnv.

(** [fetchTransactions], with the classifier the module imports. *)
Definition fetchTransactions (unicode_upper : code_unit -> jsstring)
    (institution : Type) (env : Env institution) (userId : jsstring)
  : M (result nat) :=
  fetchTransactions_with env
    (Analysis.analyzeTransactionDeductibility unicode_upper env) userId.

End Plaid.

(* ------------------------------------------------------------------ *)
(** ** What a pattern matches, and the reading of the specification *)
(* ------------------------------------------------------------------ *)

Module Meaning.
Import JS Regex Parser.

Definition hi_ok (hi : option nat) (n : nat) : Prop :=
  match hi with
  | Some h => n <= h
  | None => True
  end.

(** The declarative reading of a pattern: [Matches r a b] when [r] can take
    the matcher from state [a] to state [b], whatever the order in which the
    matcher tries its choices. *)
Fixpoint Matches (r : regex) (a b : mstate) : Prop :=
  match r with
  | Empty => b = a
  | Char p =>
      exists c, rest a = c :: rest b /\ p c = true /\
                prev b = c :: prev a /\ caps b = caps a
  | Cat r1 r2 => exists mid, Matches r1 a mid /\ Matches r2 mid b
  | Or r1 r2 => Matches r1 a b \/ Matches r2 a b
  | Rep p lo hi _ =>
      exists w, rest a = w ++ rest b /\ forallb p w = true /\
                lo <= length w /\ hi_ok hi (length w) /\
                prev b = rev w ++ prev a /\ caps b = caps a
  | Cap n body =>
      exists mid, Matches body a mid /\ b = set_cap n (consumed a mid) mid
  | Bol => prev a = [] /\ b = a
  | WordB => at_word_boundary a = true /\ b = a
  end.

(** The words of the specification for the verdict: the string starts with
    the token "yes", in any case: its first three code units are y, e, s
    and the token ends there, at the end of the string or before a code
    unit that is not a word character. *)
Definition starts_with_yes_token (s : jsstring) : bool :=
  match s with
  | y :: e :: s' :: tl =>
      (ci_match 121%N y && ci_match 101%N e && ci_match 115%N s'
       && match tl with
          | c :: _ => negb (is_word c)
          | [] => true
          end)%bool
  | _ => false
  end.

(** The words of the specification for the score: a percentage pattern
    occurs somewhere in the text, a digit followed, after optional white
    space, by the percent sign. *)
Definition has_percentage (s : jsstring) : Prop :=
  exists before d spaces after,
    s = before ++ d :: spaces ++ percent :: after /\
    is_digit d = true /\ forallb is_space spaces = true.

(** A case table that leaves every code unit outside ASCII as it is; the
    closed examples below are stated with it and only meet ASCII. *)
Definition plain_upper (c : code_unit) : jsstring := [c].

End Meaning.

(* ------------------------------------------------------------------ *)
(** ** What a history shows *)
(* ------------------------------------------------------------------ *)

Module Observations.
Import JS Parser Services.

(** The classification step: the completion call. *)
Definition is_classification (c : call) : bool :=
  match c with
  | ChatCompletion _ => true
  | _ => false
  end.

(** A call to the bank API. *)
Definition is_bank_call (c : call) : bool :=
  match c with
  | PlaidAccountsGet _ | PlaidTransactionsGet _ _ | PlaidItemGet _
  | PlaidInstitutionsGetById _ => true
  | _ => false
  end.

(** A persistence write. *)
Definition is_write (c : call) : bool :=
  match c with
  | AddAccount _ | UpdateAccount _ _ | AddTransaction _
  | UpdateTransaction _ _ => true
  | _ => false
  end.

Definition is_addTransaction (c : call) : bool :=
  match c with
  | AddTransaction _ => true
  | _ => false
  end.

Definition is_transactionsGet (c : call) : bool :=
  match c with
  | PlaidTransactionsGet _ _ => true
  | _ => false
  end.

Definition count (p : call -> bool) (h : history) : nat :=
  length (filter p h).

(** The number of [addTransaction] calls made. *)
Definition persisted (h : history) : nat := count is_addTransaction h.

(** The number of transaction listings asked of the bank. *)
Definition listings (h : history) : nat := count is_transactionsGet h.

Section WithEnv.
Variable institution : Type.
Variable env : Env institution.

(** The number of transactions the call [c], made after [before], brought
    back from the bank. *)
Definition brought (before : history) (c : call) : nat :=
  match c with
  | PlaidTransactionsGet token accountId =>
      match throws env before c with
      | None => length (transactions
                          (bank_transactions env before token accountId))
      | Some _ => 0
      end
  | _ => 0
  end.

(** The total number of transactions fetched from the bank in a history:
    every listing is replayed against the history that preceded it. *)
Fixpoint fetched (h : history) : nat :=
  match h with
  | [] => 0
  | c :: before => brought before c + fetched before
  end.

(** From [h] to the later history [h'], [p] more transactions were
    persisted, [f] more were fetched and [l] more listings were asked. *)
Definition advance (h h' : history) (p f l : nat) : Prop :=
  persisted h' = persisted h + p /\
  fetched h' = fetched h + f /\
  listings h' = listings h + l.

End WithEnv.

(** A read of the [users] table. *)
Definition is_user_read (c : call) : bool :=
  match c with
  | ServerUsersSelect _ | ClientUsersSelect _ => true
  | _ => false
  end.

(** The classifier only classifies: it adds completion calls to the history
    and nothing else. *)
Definition only_classifies (analyze : prompt_fields -> M (result verdict))
  : Prop :=
  forall x h, exists d,
    snd (analyze x h) = d ++ h /\
    Forall (fun c => is_classification c = true) d.

End Observations.

(* ------------------------------------------------------------------ *)
(** ** A concrete world, for the closed examples *)
(* ------------------------------------------------------------------ *)

Module Scenario.
Import JS Parser Services.

Definition groceries : plaid_transaction :=
  {| transaction_id := js "t1";
     date := js "2024-01-05";
     amount := (-42 # 1)%Q;
     merchant_name := Some (js "Corner Market");
     category := Some [js "Food"; js "Groceries"] |}.

Definition toner : plaid_transaction :=
  {| transaction_id := js "t2";
     date := js "2024-01-06";
     amount := (19 # 1)%Q;
     merchant_name := None;
     category := None |}.

(** One user, with or without a bank token; one bank account with two
    transactions; a completion service that answers "No, Personal, 0%" or,
    when [completion_down], throws; nothing else throws. *)
Definition world (completion_down : bool) (token : option jsstring)
  : Env unit :=
  {| throws := fun _ c =>
       match c with
       | ChatCompletion _ =>
           if completion_down then Some (ErrorObject (js "503")) else None
       | _ => None
       end;
     server_user := fun _ userId =>
       DbResult (Some (User userId token)) None;
     client_user := fun _ userId =>
       DbResult (Some (User userId token)) None;
     stored_accounts := fun _ _ => DbResult (Some []) None;
     bank_accounts := fun _ _ => [PlaidAccount (js "acc-1")];
     bank_transactions := fun _ _ _ =>
       TransactionsResponse [groceries; toner] (Some (js "req-1"));
     bank_item_institution := fun _ _ => Some (js "ins_1");
     bank_institution := fun _ _ => tt;
     completion_content := fun _ _ => Some (js "No, Personal, 0%") |}.

Definition stored_groceries : transaction_row :=
  {| row_trans_id := js "t1";
     row_account_id := js "acc-1";
     row_date := js "2024-01-05";
     row_amount := (42 # 1)%Q;
     row_merchant_name := js "Corner Market";
     row_category := js "Food, Groceries";
     row_is_deductible := Some true;
     row_deductible_reason := Some (js "Entered by hand");
     row_deduction_score := Some (Some (Fin 0.70%Q)) |}.

End Scenario.

(* ------------------------------------------------------------------ *)
(** ** The rest of [src/lib/openai/analysis.ts] *)
(* ------------------------------------------------------------------ *)

Module Batch.
Import JS Parser Services Analysis.

Definition is_success {A} (r : result A) : bool :=
  match r with
  | Success _ => true
  | Failure _ => false
  end.

(** [{ success: true, analyzed, total }] *)
Record analysis_report := AnalysisReport {
  analyzed : nat;
  total : nat
}.

(** [t.is_deductible] as a condition: the column is [true]. *)
Definition flagged (t : transaction_row) : bool :=
  match row_is_deductible t with
  | Some true => true
  | _ => false
  end.

Section WithStorage.

(** [getTransactions] of [../database/transactions]: one storage query,
    which resolves to [{ data, error }]. *)
Variable getTransactions : jsstring -> M (db_result (list transaction_row)).

Section AnalyzeAll.

(** [await Promise.all(transactions.map(callback))]: the callbacks run
    interleaved as the platform schedules them; the results come in the
    order of the transactions, and a callback that throws makes the whole
    throw. *)
Variable settle_all : list transaction_row -> M (list (result verdict)).

(** [analyzeAllTransactions] *)
Definition analyzeAllTransactions (userId : jsstring)
  : M (result analysis_report) :=
  try_catch
    (r <- getTransactions userId ;;
     match data r with
     | None | Some [] =>
         ret (Failure (Message (js "No transactions found")))
     | Some (t :: tl) =>
         results <- settle_all (t :: tl) ;;
         let successful := length (filter is_success results) in
         ret (Success (AnalysisReport successful (length (t :: tl))))
     end)%js
    (fun e => ret (Failure (Caught e))).

End AnalyzeAll.

Section Summary.

(** The numbers of the platform, with its addition; [of_amount] reads a
    stored amount. *)
Variable num : Type.
Variable zero : num.
Variable plus : num -> num -> num.
Variable of_amount : Q -> num.

(** What the template of the summary prompt is filled with. *)
Record summary_prompt := SummaryPrompt {
  sp_transactions : nat;
  sp_deductible : nat;
  sp_total_deductible : num;
  sp_lines : list (jsstring * num * option jsstring)
}.

(** The completion call of [generateTaxSummary]; it answers with
    [response.choices[0].message.content]. *)
Variable summarize : summary_prompt -> M (option jsstring).

Record tax_summary := TaxSummary {
  summary : option jsstring;
  totalDeductible : num;
  deductibleCount : nat
}.

(** [generateTaxSummary] *)
Definition generateTaxSummary (userId : jsstring) : M (result tax_summary) :=
  try_catch
    (r <- getTransactions userId ;;
     match data r with
     | None | Some [] =>
         ret (Failure (Message (js "No transactions found")))
     | Some (t :: tl) =>
         let transactions := t :: tl in
         let deductibleTransactions := filter flagged transactions in
         let totalDeductible :=
           fold_left (fun sum t => plus sum (of_amount (row_amount t)))
                     deductibleTransactions zero in
         content <- summarize
           (SummaryPrompt
              (length transactions)
              (length deductibleTransactions)
              totalDeductible
              (map (fun t => (row_merchant_name t, of_amount (row_amount t),
                              row_deductible_reason t))
                   deductibleTransactions)) ;;
         ret (Success (TaxSummary content totalDeductible
                                  (length deductibleTransactions)))
     end)%js
    (fun e => ret (Failure (Caught e))).

End Summary.
End WithStorage.

(** One schedule of [Promise.all]: every completion is requested, in the
    order of the transactions, and the answers are then handled in that
    order. *)
Section InRequestOrder.
Variable unicode_upper : code_unit -> jsstring.
Variable institution : Type.
Variable env : Env institution.

Fixpoint request_all (l : list transaction_row)
  : M (list (transaction_row * result verdict)) :=
  match l with
  | [] => ret []
  | t :: tl =>
      (analysis <- analyzeTransactionDeductibility unicode_upper env
                     (prompt_of_row t) ;;
       rest <- request_all tl ;;
       ret ((t, analysis) :: rest))%js
  end.

Fixpoint update_all (l : list (transaction_row * result verdict))
  : M (list (result verdict)) :=
  match l with
  | [] => ret []
  | (t, analysis) :: tl =>
      (match analysis with
       | Success v =>
           perform_ env (UpdateTransaction (row_trans_id t) (updates_of v))
       | Failure _ => ret tt
       end ;;
       rest <- update_all tl ;;
       ret (analysis :: rest))%js
  end.

Definition settle_in_request_order (l : list transaction_row)
  : M (list (result verdict)) :=
  (answers <- request_all l ;; update_all answers)%js.

End InRequestOrder.

End Batch.

(* ------------------------------------------------------------------ *)
(** ** The route handlers: [src/app/api/transactions/route.ts] and
       [src/app/api/plaid/exchange-public-token/route.ts] *)
(* ------------------------------------------------------------------ *)

Module Routes.
Import JS Services.

(** The calls a handler makes. *)
Inductive route_call :=
| ReadRequestJson
| ItemPublicTokenExchange (public_token : jsstring)
| AccountsGet (access_token : jsstring)
| CreateServerClient
| UsersUpdateToken (userId access_token : jsstring)
| ProfilesUpsertToken (userId access_token : jsstring)
| GetTransactions (userId : jsstring).

Definition route_history := list route_call.

(** The body of [request.json()] as the handler destructures it: each of
    the two properties is a string or is missing. *)
Record exchange_request := ExchangeRequest {
  req_public_token : option jsstring;
  req_userId : option jsstring
}.

Record token_response := TokenResponse {
  access_token : jsstring;
  item_id : jsstring
}.

(** The world a handler runs in; as for [Services.Env], a call may throw
    or answer, depending on everything done before. *)
Record RouteEnv := {
  route_throws : route_history -> route_call -> option thrown;
  request_json : route_history -> exchange_request;
  exchanged : route_history -> jsstring -> token_response;
  listed_accounts : route_history -> jsstring -> list plaid_account;
  users_update_error : route_history -> jsstring -> jsstring -> option jsstring;
  profiles_upsert_error :
    route_history -> jsstring -> jsstring -> option jsstring;
  queried_transactions :
    route_history -> jsstring -> db_result (list transaction_row)
}.

Definition H (A : Type) : Type := route_history -> outcome A * route_history.

Definition hret {A} (a : A) : H A := fun h => (Returned a, h).

Definition hbind {A B} (m : H A) (f : A -> H B) : H B :=
  fun h =>
    match m h with
    | (Returned a, h') => f a h'
    | (Thrown e, h') => (Thrown e, h')
    end.

Definition htry {A} (m : H A) (handler : thrown -> H A) : H A :=
  fun h =>
    match m h with
    | (Returned a, h') => (Returned a, h')
    | (Thrown e, h') => handler e h'
    end.

Declare Scope route_scope.
Delimit Scope route_scope with route.
Notation "x <- m ;; k" := (hbind m (fun x => k))
  (at level 61, m at next level, right associativity) : route_scope.
Notation "m ;; k" := (hbind m (fun _ => k))
  (at level 61, right associativity) : route_scope.

(** [NextResponse.json(body, { status })]; the status is 200 when it is not
    given. *)
Record response (Body : Type) := Json {
  status : nat;
  body : Body
}.
Arguments Json {Body} status body.

(** The bodies of the transactions route. *)
Inductive transactions_body :=
| TransactionsError (error : jsstring)
| TransactionsFound (transactions : list transaction_row).

(** The bodies of the token exchange route. *)
Inductive exchange_body :=
| ExchangeError (error : jsstring)
| Connected (access_token item_id : jsstring) (accounts : list plaid_account).

Section WithEnv.
Variable env : RouteEnv.

Definition call_out {A} (c : route_call) (answer : route_history -> A) : H A :=
  fun h =>
    match route_throws env h c with
    | Some e => (Thrown e, c :: h)
    | None => (Returned (answer h), c :: h)
    end.

(** [GET] of the transactions route; [userId] is
    [searchParams.get('userId')]. *)
Definition GET (userId : option jsstring) : H (response transactions_body) :=
  htry
    (match truthy_string userId with
     | None => hret (Json 400 (TransactionsError (js "User ID is required")))
     | Some uid =>
         r <- call_out (GetTransactions uid)
                       (fun h => queried_transactions env h uid) ;;
         match error r with
         | Some _ =>
             hret (Json 500
                     (TransactionsError (js "Failed to fetch transactions")))
         | None =>
             hret (Json 200
                     (TransactionsFound
                        (match data r with
                         | Some l => l
                         | None => []
                         end)))
         end
     end)%route
    (fun _ => hret (Json 500 (TransactionsError (js "Internal server error")))).

(** [POST] of the token exchange route. *)
Definition POST : H (response exchange_body) :=
  htry
    (request <- call_out ReadRequestJson (request_json env) ;;
     match truthy_string (req_public_token request),
           truthy_string (req_userId request) with
     | Some public_token, Some userId =>
         tokenResponse <- call_out (ItemPublicTokenExchange public_token)
                            (fun h => exchanged env h public_token) ;;
         let accessToken := access_token tokenResponse in
         let itemId := item_id tokenResponse in
         accounts <- call_out (AccountsGet accessToken)
                       (fun h => listed_accounts env h accessToken) ;;
         call_out CreateServerClient (fun _ => tt) ;;
         updateError <- call_out (UsersUpdateToken userId accessToken)
                          (fun h => users_update_error env h userId accessToken) ;;
         match updateError with
         | Some _ =>
             call_out (ProfilesUpsertToken userId accessToken)
                      (fun h =>
                         profiles_upsert_error env h userId accessToken) ;;
             hret tt
         | None => hret tt
         end ;;
         hret (Json 200 (Connected accessToken itemId accounts))
     | _, _ =>
         hret (Json 400
                 (ExchangeError (js "Public token and user ID are required")))
     end)%route
    (fun _ =>
       hret (Json 500 (ExchangeError (js "Failed to exchange public token")))).

End WithEnv.

(** A world in which nothing throws and the first save reports an error or
    not. *)
Definition calm (first_save_fails second_save_fails : bool)
    (request : exchange_request) : RouteEnv :=
  {| route_throws := fun _ _ => None;
     request_json := fun _ => request;
     exchanged := fun _ _ => TokenResponse (js "access-1") (js "item-1");
     listed_accounts := fun _ _ => [PlaidAccount (js "acc-1")];
     users_update_error := fun _ _ _ =>
       if first_save_fails then Some (js "PGRST204") else None;
     profiles_upsert_error := fun _ _ _ =>
       if second_save_fails then Some (js "42P01") else None;
     queried_transactions := fun _ _ => DbResult None None |}.

End Routes.

(* ------------------------------------------------------------------ *)
(** ** The handlers of the protected page *)
(* ------------------------------------------------------------------ *)

Module Page.
Import JS.

Inductive transaction_type :=
| expense
| income.

(** [interface Transaction] *)
Record transaction := Transaction {
  id : jsstring;
  description : jsstring;
  amount : Q;
  category : jsstring;
  date : jsstring;
  type : transaction_type;
  isDeductible : bool;
  notes : option jsstring
}.

(** The values of [currentScreen]. *)
Inductive screen :=
| dashboard
| settings
| debug
| add_expense
| receipt_upload
| tax_calendar
| transactions_screen
| edit_expense
| deductions_detail
| expenses_detail
| banks_detail.

(** The three pieces of state the handlers below set. *)
Record page_state := PageState {
  currentScreen : screen;
  editingTransaction : option transaction;
  transactions : list transaction
}.

(** [Array.prototype.findIndex]; [None] is -1. *)
Fixpoint findIndex {A} (p : A -> bool) (l : list A) : option nat :=
  match l with
  | [] => None
  | x :: tl => if p x then Some 0 else option_map S (findIndex p tl)
  end.

(** [updated[i] = x] on a copy.  The index the handler passes comes from
    [findIndex] and is within the array; beyond it, where the platform
    would extend the array, the list is left as it is. *)
Fixpoint assign_at {A} (i : nat) (x : A) (l : list A) : list A :=
  match l, i with
  | [], _ => []
  | _ :: tl, O => x :: tl
  | y :: tl, S j => y :: assign_at j x tl
  end.

Definition same_id (a b : transaction) : bool := str_eqb (id b) (id a).

(** The updater [handleSaveTransaction] passes to [setTransactions]. *)
Definition save_into (t : transaction) (prev : list transaction)
  : list transaction :=
  match findIndex (same_id t) prev with
  | Some existingIndex => assign_at existingIndex t prev
  | None => prev ++ [t]
  end.

(** [handleSaveTransaction] *)
Definition handleSaveTransaction (t : transaction) (st : page_state)
  : page_state :=
  PageState (currentScreen st) (editingTransaction st)
            (save_into t (transactions st)).

(** [handleEditTransaction] *)
Definition handleEditTransaction (t : transaction) (st : page_state)
  : page_state :=
  PageState add_expense (Some t) (transactions st).

Definition go (s : screen) (st : page_state) : page_state :=
  PageState s (editingTransaction st) (transactions st).

(** [handleNavigate] *)
Definition handleNavigate (name : jsstring) (st : page_state) : page_state :=
  if str_eqb name (js "settings") then go settings st
  else if str_eqb name (js "dashboard") then go dashboard st
  else if str_eqb name (js "debug") then go debug st
  else if (str_eqb name (js "categorize")
           || str_eqb name (js "add-expense"))%bool
  then PageState add_expense None (transactions st)
  else if str_eqb name (js "receipt-upload") then go receipt_upload st
  else if str_eqb name (js "tax-calendar") then go tax_calendar st
  else if str_eqb name (js "transactions") then go transactions_screen st
  else if str_eqb name (js "deductions-detail") then go deductions_detail st
  else if str_eqb name (js "expenses-detail") then go expenses_detail st
  else if str_eqb name (js "banks-detail") then go banks_detail st
  else st.

(** The names [handleNavigate] knows. *)
Definition known_names : list jsstring :=
  [js "settings"; js "dashboard"; js "debug"; js "categorize";
   js "add-expense"; js "receipt-upload"; js "tax-calendar";
   js "transactions"; js "deductions-detail"; js "expenses-detail";
   js "banks-detail"].

(** [Array.prototype.find] by id. *)
Definition find_by_id (i : jsstring) (l : list transaction)
  : option transaction :=
  find (fun t => str_eqb (id t) i) l.

(** The first two transactions of the initial state. *)
Definition staples : transaction :=
  Transaction (js "1") (js "Office Supplies - Staples") 149.99%Q
              (js "Office Supplies") (js "2024-12-28") expense true None.

Definition adobe : transaction :=
  Transaction (js "2") (js "Adobe Creative Suite") 52.99%Q
              (js "Software & Subscriptions") (js "2024-12-27") expense true
              None.

End Page.

(* ------------------------------------------------------------------ *)
(** ** More concrete worlds, for the closed examples *)
(* ------------------------------------------------------------------ *)

Module Worlds.
Import JS Parser Services Scenario.

(** The world of [Scenario.world] with the completion service answering
    [reply], the user holding the token "access-1", the bank listing the
    given accounts, and [failing] telling which calls throw. *)
Definition world_with (failing : call -> option thrown) (reply : jsstring)
    (accounts : list plaid_account) (institution_id : option jsstring)
  : Env unit :=
  {| throws := fun _ c => failing c;
     server_user := fun _ userId =>
       DbResult (Some (User userId (Some (js "access-1")))) None;
     client_user := fun _ userId =>
       DbResult (Some (User userId (Some (js "access-1")))) None;
     stored_accounts := fun _ _ => DbResult (Some []) None;
     bank_accounts := fun _ _ => accounts;
     bank_transactions := fun _ _ _ =>
       TransactionsResponse [groceries; toner] (Some (js "req-1"));
     bank_item_institution := fun _ _ => institution_id;
     bank_institution := fun _ _ => tt;
     completion_content := fun _ _ => Some reply |}.

Definition nothing_fails (c : call) : option thrown := None.

Definition bank_down : thrown := ErrorObject (js "ECONNRESET").

(** Only the listing of the bank accounts throws. *)
Definition accounts_listing_fails (c : call) : option thrown :=
  match c with
  | PlaidAccountsGet _ => Some bank_down
  | _ => None
  end.

(** Only the listing of the transactions of the account "acc-2", asked with
    the token "access-1", throws. *)
Definition second_listing_fails (c : call) : option thrown :=
  match c with
  | PlaidTransactionsGet token accountId =>
      if (str_eqb token (js "access-1")
          && str_eqb accountId (js "acc-2"))%bool
      then Some bank_down else None
  | _ => None
  end.

(** The server-side client throws and the module's own client answers. *)
Definition server_client_fails (c : call) : option thrown :=
  match c with
  | ServerUsersSelect _ => Some (ErrorObject (js "cookies"))
  | _ => None
  end.

Definition two_accounts : list plaid_account :=
  [PlaidAccount (js "acc-1"); PlaidAccount (js "acc-2")].

End Worlds.

(* ------------------------------------------------------------------ *)
(** ** The matcher against the declarative reading *)
(* ------------------------------------------------------------------ *)

Module RegexFacts.
Import JS Regex Meaning.

Lemma hi_ok_step hi n : hi_ok hi (S n) -> hi_allows hi = true /\ hi_ok (hi_pred hi) n.
Proof.
  destruct hi as [[|h]|]; simpl; intros H; split; try reflexivity; try lia; auto.
Qed.

Lemma hi_ok_back hi n :
  hi_allows hi = true -> hi_ok (hi_pred hi) n -> hi_ok hi (S n).
Proof.
  destruct hi as [[|h]|]; simpl; intros A B; try discriminate; try lia; auto.
Qed.

(** Whatever the quantifier returns was returned by its continuation, after
    a run of code units of the class, of an allowed length. *)
Lemma rep_sound (R : Type) p g rs :
  forall lo hi pv (k : jsstring -> jsstring -> option R) res,
    rep p g lo hi pv rs k = Some res ->
    exists w rs', rs = w ++ rs' /\ forallb p w = true /\
                  lo <= length w /\ hi_ok hi (length w) /\
                  k (rev w ++ pv) rs' = Some res.
Proof.
  induction rs as [|c tl IH]; intros lo hi pv k res H.
  - destruct lo as [|lo]; simpl in H.
    + assert (K : k pv [] = Some res).
      { destruct g, (hi_allows hi); simpl in H;
          try (destruct (k pv []); congruence); congruence. }
      exists [], []. simpl. repeat split; auto.
      destruct hi; simpl; auto; lia.
    + destruct (hi_allows hi); discriminate.
  - assert (More : hi_allows hi = true -> p c = true ->
                   rep p g (Nat.pred lo) (hi_pred hi) (c :: pv) tl k = Some res ->
                   exists w rs', c :: tl = w ++ rs' /\ forallb p w = true /\
                     lo <= length w /\ hi_ok hi (length w) /\
                     k (rev w ++ pv) rs' = Some res).
    { intros Ha Hp Hr. destruct (IH _ _ _ _ _ Hr) as (w & rs' & E & F & L & U & K).
      exists (c :: w), rs'. simpl. rewrite Hp, F, E.
      repeat split; auto; try lia.
      - apply hi_ok_back; assumption.
      - rewrite <- app_assoc. exact K. }
    assert (Stop : k pv (c :: tl) = Some res -> lo = 0 ->
                   exists w rs', c :: tl = w ++ rs' /\ forallb p w = true /\
                     lo <= length w /\ hi_ok hi (length w) /\
                     k (rev w ++ pv) rs' = Some res).
    { intros K E. subst lo. exists [], (c :: tl). simpl. repeat split; auto.
      destruct hi; simpl; auto; lia. }
    destruct lo as [|lo]; simpl in H.
    + destruct g.
      * destruct (hi_allows hi) eqn:Ha; [destruct (p c) eqn:Hp|].
        -- destruct (rep p true 0 (hi_pred hi) (c :: pv) tl k) eqn:Hr.
           ++ inversion H; subst. apply More; auto.
           ++ apply Stop; auto.
        -- apply Stop; auto.
        -- apply Stop; auto.
      * destruct (k pv (c :: tl)) eqn:Hk.
        -- inversion H; subst. apply Stop; auto.
        -- destruct (hi_allows hi) eqn:Ha; [destruct (p c) eqn:Hp|];
             try discriminate. apply More; auto.
    + destruct (hi_allows hi) eqn:Ha; [destruct (p c) eqn:Hp|]; try discriminate.
      apply More; auto.
Qed.

(** A run of the class of an allowed length, after which the continuation
    answers, makes the quantifier answer. *)
Lemma rep_complete (R : Type) p g w :
  forall rs' lo hi pv (k : jsstring -> jsstring -> option R),
    forallb p w = true -> lo <= length w -> hi_ok hi (length w) ->
    k (rev w ++ pv) rs' <> None ->
    rep p g lo hi pv (w ++ rs') k <> None.
Proof.
  induction w as [|c w IH]; intros rs' lo hi pv k F L U K.
  - simpl in *. assert (lo = 0) by lia. subst lo.
    destruct rs' as [|c tl]; simpl.
    + destruct g.
      * destruct (hi_allows hi); destruct (k pv []); congruence.
      * destruct (k pv []); congruence.
    + destruct g.
      * destruct (if hi_allows hi
                  then if p c then rep p true 0 (hi_pred hi) (c :: pv) tl k
                       else None
                  else None); [discriminate|exact K].
      * destruct (k pv (c :: tl)); [discriminate|congruence].
  - simpl in F. apply andb_true_iff in F. destruct F as [Hp F].
    simpl in U. apply hi_ok_step in U. destruct U as [Ha U].
    assert (Rec : rep p g (Nat.pred lo) (hi_pred hi) (c :: pv) (w ++ rs') k
                  <> None).
    { apply IH; auto.
      - simpl in L. lia.
      - simpl in K. rewrite <- app_assoc in K. exact K. }
    destruct lo as [|lo]; simpl; rewrite Ha, Hp.
    + destruct g.
      * simpl in Rec.
        destruct (rep p true 0 (hi_pred hi) (c :: pv) (w ++ rs') k);
          [discriminate|congruence].
      * destruct (k pv (c :: w ++ rs')); [discriminate|exact Rec].
    + exact Rec.
Qed.

(** Soundness of the matcher: an answer comes from the continuation, at a
    state the pattern leads to. *)
Lemma rmatch_sound (R : Type) r :
  forall st (k : mstate -> option R) res,
    rmatch r st k = Some res ->
    exists st', Matches r st st' /\ k st' = Some res.
Proof.
  induction r as [|p|r1 IH1 r2 IH2|r1 IH1 r2 IH2|p lo hi g|n r IH| |];
    intros st k res H; simpl in H.
  - exists st. split; [reflexivity|assumption].
  - destruct st as [pv rs cs]. simpl in H.
    destruct rs as [|c tl]; [discriminate|].
    destruct (p c) eqn:Hp; [|discriminate].
    eexists. split; [|exact H]. simpl. exists c. auto.
  - apply IH1 in H. destruct H as (mid & M1 & H).
    apply IH2 in H. destruct H as (st' & M2 & H).
    exists st'. split; [|assumption]. simpl. exists mid. auto.
  - destruct (rmatch r1 st k) eqn:E1.
    + inversion H; subst. apply IH1 in E1. destruct E1 as (st' & M1 & K).
      exists st'. simpl. auto.
    + apply IH2 in H. destruct H as (st' & M2 & K). exists st'. simpl. auto.
  - apply rep_sound in H. destruct H as (w & rs' & E & F & L & U & K).
    eexists. split; [|exact K]. simpl. exists w. repeat split; auto.
  - apply IH in H. destruct H as (mid & M1 & K).
    eexists. split; [|exact K]. simpl. exists mid. auto.
  - destruct (prev st) eqn:E; [|discriminate].
    exists st. simpl. auto.
  - destruct (at_word_boundary st) eqn:E; [|discriminate].
    exists st. simpl. auto.
Qed.

(** Completeness of the matcher: when the pattern leads to a state at which
    the continuation answers, the matcher answers. *)
Lemma rmatch_complete (R : Type) r :
  forall st st' (k : mstate -> option R),
    Matches r st st' -> k st' <> None -> rmatch r st k <> None.
Proof.
  induction r as [|p|r1 IH1 r2 IH2|r1 IH1 r2 IH2|p lo hi g|n r IH| |];
    intros st st' k M K; simpl in M; simpl.
  - subst. assumption.
  - destruct M as (c & E & Hp & P & C).
    destruct st as [pv rs cs], st' as [pv' rs' cs']. simpl in *. subst.
    rewrite Hp. assumption.
  - destruct M as (mid & M1 & M2).
    eapply IH1; [exact M1|]. eapply IH2; [exact M2|assumption].
  - destruct M as [M|M].
    + pose proof (IH1 _ _ _ M K) as N.
      destruct (rmatch r1 st k); [discriminate|congruence].
    + destruct (rmatch r1 st k); [discriminate|]. apply (IH2 _ _ _ M K).
  - destruct M as (w & E & F & L & U & P & C).
    rewrite E. apply rep_complete; auto.
    destruct st' as [pv' rs' cs']. simpl in *. subst. assumption.
  - destruct M as (mid & M1 & E). subst st'.
    eapply IH; [exact M1|assumption].
  - destruct M as [E ?]. subst st'. rewrite E. assumption.
  - destruct M as [E ?]. subst st'. rewrite E. assumption.
Qed.

(** [exec] answers with a state the pattern leads to from some split of the
    input. *)
Lemma search_sound r rs :
  forall pv st,
    search_from r pv rs = Some st ->
    exists pv' rs', rev pv ++ rs = rev pv' ++ rs' /\
                    Matches r (MState pv' rs' []) st.
Proof.
  induction rs as [|c tl IH]; intros pv st H; simpl in H.
  - destruct (rmatch r (MState pv [] []) (fun s => Some s)) eqn:E; [|discriminate].
    inversion H; subst. apply rmatch_sound in E. destruct E as (st' & M & K).
    inversion K; subst. exists pv, []. auto.
  - destruct (rmatch r (MState pv (c :: tl) []) (fun s => Some s)) eqn:E.
    + inversion H; subst. apply rmatch_sound in E. destruct E as (st' & M & K).
      inversion K; subst. exists pv, (c :: tl). auto.
    + apply IH in H. destruct H as (pv' & rs' & S & M).
      exists pv', rs'. split; [|assumption].
      rewrite <- S. simpl. rewrite <- app_assoc. reflexivity.
Qed.

Lemma exec_sound r s st :
  exec r s = Some st ->
  exists pv rs, s = rev pv ++ rs /\ Matches r (MState pv rs []) st.
Proof.
  intros H. apply search_sound in H. exact H.
Qed.

(** [exec] finds a match whenever the pattern matches at some split. *)
Lemma search_complete r mid :
  forall pv rs st,
    Matches r (MState (rev mid ++ pv) rs []) st ->
    search_from r pv (mid ++ rs) <> None.
Proof.
  induction mid as [|c mid IH]; intros pv rs st M.
  - simpl in *.
    assert (N : rmatch r (MState pv rs []) (fun s => Some s) <> None).
    { eapply rmatch_complete; [exact M|discriminate]. }
    destruct rs; simpl;
      destruct (rmatch r _ (fun s => Some s)); congruence.
  - simpl. destruct (rmatch r _ (fun s => Some s)); [discriminate|].
    apply (IH (c :: pv) rs st). simpl in M. rewrite <- app_assoc in M. exact M.
Qed.

Lemma exec_complete r before rs st :
  Matches r (MState (rev before) rs []) st -> exec r (before ++ rs) <> None.
Proof.
  intros M. apply (@search_complete r before [] rs st).
  rewrite app_nil_r. exact M.
Qed.

End RegexFacts.

(* ------------------------------------------------------------------ *)
(** ** Facts about the four patterns of the parser *)
(* ------------------------------------------------------------------ *)

Module ParserFacts.
Import JS Regex Parser Meaning RegexFacts.

(** Every pattern reads a prefix of what is ahead. *)
Lemma Matches_rest r :
  forall a b, Matches r a b -> exists w, rest a = w ++ rest b.
Proof.
  induction r as [|p|r1 IH1 r2 IH2|r1 IH1 r2 IH2|p lo hi g|n r IH| |];
    intros a b M; simpl in M.
  - subst. exists []. reflexivity.
  - destruct M as (c & E & _). exists [c]. exact E.
  - destruct M as (mid & M1 & M2).
    destruct (IH1 _ _ M1) as (w1 & E1). destruct (IH2 _ _ M2) as (w2 & E2).
    exists (w1 ++ w2). rewrite E1, E2, app_assoc. reflexivity.
  - destruct M as [M|M]; [apply IH1|apply IH2]; exact M.
  - destruct M as (w & E & _). exists w. exact E.
  - destruct M as (mid & M1 & E). subst b. simpl. apply IH. exact M1.
  - destruct M as [_ E]. subst. exists []. reflexivity.
  - destruct M as [_ E]. subst. exists []. reflexivity.
Qed.

Lemma consumed_app a b w : rest a = w ++ rest b -> consumed a b = w.
Proof.
  intros E. unfold consumed. rewrite E, length_app.
  replace (length w + length (rest b) - length (rest b)) with (length w) by lia.
  rewrite firstn_app, firstn_all, Nat.sub_diag. simpl. apply app_nil_r.
Qed.

(** A captured quantifier records exactly the run it read. *)
Lemma Matches_cap_rep n p lo hi g a b :
  Matches (Cap n (Rep p lo hi g)) a b ->
  exists w, rest a = w ++ rest b /\ forallb p w = true /\
            lo <= length w /\ hi_ok hi (length w) /\
            caps b = (n, w) :: caps a.
Proof.
  intros (mid & (w & E & F & L & U & P & C) & B). subst b. simpl.
  exists w. rewrite (consumed_app a mid w E), C. repeat split; auto.
Qed.

Lemma Matches_rep p lo hi g a b :
  Matches (Rep p lo hi g) a b ->
  exists w, rest a = w ++ rest b /\ forallb p w = true /\
            lo <= length w /\ caps b = caps a.
Proof.
  intros (w & E & F & L & U & P & C). exists w. auto.
Qed.

Lemma Matches_one c a b :
  Matches (one c) a b -> rest a = c :: rest b /\ caps b = caps a.
Proof.
  intros (x & E & Hx & P & C). apply N.eqb_eq in Hx. subst x. auto.
Qed.

(** A non-empty run of digits ends with a digit. *)
Lemma digits_last w :
  forallb is_digit w = true -> 1 <= length w ->
  exists w' d, w = w' ++ [d] /\ is_digit d = true.
Proof.
  intros F L. destruct (exists_last (l := w)) as (w' & d & E).
  { destruct w; simpl in L; [lia|discriminate]. }
  exists w', d. split; [exact E|]. subst w.
  rewrite forallb_app in F. apply andb_true_iff in F. destruct F as [_ F].
  simpl in F. rewrite andb_true_r in F. exact F.
Qed.

Lemma digits_then_percent before w spaces after :
  forallb is_digit w = true -> 1 <= length w ->
  forallb is_space spaces = true ->
  has_percentage (before ++ w ++ spaces ++ percent :: after).
Proof.
  intros F L Sp. destruct (digits_last w F L) as (w' & d & E & D). subst w.
  exists (before ++ w'), d, spaces, after. repeat split; auto.
  repeat rewrite <- app_assoc. reflexivity.
Qed.

(** What a match of the strict pattern provides. *)
Lemma strict_shape pv rs m :
  Matches re_strict (MState pv rs []) m ->
  (exists r, capture 2 m = Some r) /\
  (exists w, capture 3 m = Some w /\ forallb is_digit w = true /\
             1 <= length w) /\
  has_percentage (rev pv ++ rs).
Proof.
  intros M.
  destruct M as (m0 & [_ E0] & M). subst m0.
  destruct M as (m1 & (c1 & M1 & E1) & M). apply Matches_rest in M1.
  destruct M1 as (w1 & R1). subst m1.
  destruct M as (m2 & M2 & M). apply Matches_rep in M2.
  destruct M2 as (s1 & R2 & _ & _ & C2).
  destruct M as (m3 & M3 & M). apply Matches_cap_rep in M3.
  destruct M3 as (w2 & R3 & _ & _ & _ & C3).
  destruct M as (m4 & M4 & M). apply Matches_rep in M4.
  destruct M4 as (s2 & R4 & _ & _ & C4).
  destruct M as (m5 & M5 & M). apply Matches_cap_rep in M5.
  destruct M5 as (w3 & R5 & F5 & L5 & _ & C5).
  destruct M as (m6 & M6 & M). apply Matches_one in M6.
  destruct M6 as (R6 & C6). simpl in M. subst m.
  simpl in R1, R2, C2.
  unfold capture. rewrite C6, C5, C4, C3. simpl.
  split; [eexists; reflexivity|]. split.
  - exists w3. auto.
  - rewrite R1, R2, R3, R4, R5, R6.
    replace (rev pv ++ w1 ++ s1 ++ w2 ++ s2 ++ w3 ++ percent :: rest m6)
      with ((rev pv ++ w1 ++ s1 ++ w2 ++ s2) ++ w3 ++ [] ++ percent :: rest m6)
      by (repeat rewrite <- app_assoc; reflexivity).
    apply digits_then_percent; auto.
Qed.

(** What a match of the score pattern provides. *)
Lemma score_shape pv rs m :
  Matches re_score (MState pv rs []) m ->
  (exists w, capture 1 m = Some w /\ forallb is_digit w = true /\
             1 <= length w) /\
  has_percentage (rev pv ++ rs).
Proof.
  intros M.
  destruct M as (m1 & M1 & M). apply Matches_cap_rep in M1.
  destruct M1 as (w & R1 & F1 & L1 & _ & C1).
  destruct M as (m2 & M2 & M). apply Matches_rep in M2.
  destruct M2 as (sp & R2 & F2 & _ & C2).
  destruct M as (m3 & M3 & M). apply Matches_one in M3.
  destruct M3 as (R3 & C3). simpl in M. subst m.
  simpl in R1, C1.
  unfold capture. rewrite C3, C2, C1. simpl. split.
  - exists w. auto.
  - rewrite R1, R2, R3. apply digits_then_percent; auto.
Qed.

(** The score pattern matches wherever a percentage pattern stands. *)
Lemma score_matches before d spaces after :
  is_digit d = true -> forallb is_space spaces = true ->
  exists m,
    Matches re_score
            (MState (rev before) (d :: spaces ++ percent :: after) []) m.
Proof.
  intros D Sp.
  exists (MState (percent :: rev spaces ++ d :: rev before) after
                 [(1, [d])]).
  exists (MState (d :: rev before) (spaces ++ percent :: after) [(1, [d])]).
  split.
  - exists (MState (d :: rev before) (spaces ++ percent :: after) []).
    split.
    + exists [d]. simpl. rewrite D. repeat split; auto.
    + rewrite (@consumed_app
                 (MState (rev before) (d :: spaces ++ percent :: after) [])
                 (MState (d :: rev before) (spaces ++ percent :: after) [])
                 [d] eq_refl).
      reflexivity.
  - exists (MState (rev spaces ++ d :: rev before) (percent :: after)
                   [(1, [d])]).
    split.
    + exists spaces. simpl. repeat split; auto. lia.
    + exists (MState (percent :: rev spaces ++ d :: rev before) after
                     [(1, [d])]).
      split; [|reflexivity].
      exists percent. simpl. repeat split; auto.
Qed.

(** The fallback finds a score exactly when a percentage pattern occurs. *)
Lemma exec_score_none s : exec re_score s = None <-> ~ has_percentage s.
Proof.
  split.
  - intros E (before & d & spaces & after & S & D & Sp). subst s.
    destruct (@score_matches before d spaces after D Sp) as (m & M).
    apply exec_complete in M. contradiction.
  - intros N. destruct (exec re_score s) as [m|] eqn:E; [|reflexivity].
    exfalso. apply N. apply exec_sound in E.
    destruct E as (pv & rs & S & M). subst s.
    apply (score_shape M).
Qed.

(** The groups of the canonical reply, as the engine of the platform gives
    them: the lazy reason group stops at the last separator before the
    digits. *)
Example strict_groups_of_canonical_reply :
  option_map (fun m => (capture 1 m, capture 2 m, capture 3 m))
             (exec re_strict (js "No, Personal entertainment expense, 95%"))
  = Some (Some (js "No"), Some (js "Personal entertainment expense"),
          Some (js "95")).
Proof. vm_compute. reflexivity. Qed.

(** The score pattern takes the leftmost start: of "1500%" it reads "500". *)
Example score_group_of_four_digits :
  option_map (capture 1) (exec re_score (js "1500%")) = Some (Some (js "500")).
Proof. vm_compute. reflexivity. Qed.

(** What a match of the fallback reason pattern provides. *)
Lemma reason_shape pv rs m :
  Matches re_reason (MState pv rs []) m -> exists r, capture 1 m = Some r.
Proof.
  intros M.
  destruct M as (m0 & [_ E0] & M). subst m0.
  destruct M as (m1 & M1 & M). apply Matches_rep in M1.
  destruct M1 as (w1 & _ & _ & _ & C1).
  destruct M as (m2 & M2 & M). apply Matches_one in M2. destruct M2 as (_ & C2).
  destruct M as (m3 & M3 & M). apply Matches_rep in M3.
  destruct M3 as (w3 & _ & _ & _ & C3).
  destruct M as (m4 & M4 & M). apply Matches_cap_rep in M4.
  destruct M4 as (w4 & _ & _ & _ & _ & C4).
  destruct M as (m5 & M5 & M). apply Matches_one in M5. destruct M5 as (_ & C5).
  destruct M as (m6 & M6 & M). apply Matches_rep in M6.
  destruct M6 as (w6 & _ & _ & _ & C6).
  destruct M as (m7 & M7 & M). apply Matches_rep in M7.
  destruct M7 as (w7 & _ & _ & _ & C7).
  destruct M as (m8 & M8 & M). apply Matches_one in M8. destruct M8 as (_ & C8).
  simpl in M. subst m.
  unfold capture. rewrite C8, C7, C6, C5, C4. simpl. eexists; reflexivity.
Qed.

End ParserFacts.

(* ------------------------------------------------------------------ *)
(** ** Facts about numbers and about the verdict pattern *)
(* ------------------------------------------------------------------ *)

Module ScoreFacts.
Import JS Regex Parser Meaning RegexFacts.

Ltac split_tests :=
  repeat match goal with
         | |- context [N.eqb ?a ?b] => destruct (N.eqb_spec a b); try lia
         | |- context [N.leb ?a ?b] => destruct (N.leb_spec a b); try lia
         end.

Lemma digit_range c : is_digit c = true -> (48 <= c <= 57)%N.
Proof.
  unfold is_digit, between. intros H. apply andb_true_iff in H.
  destruct H as [A B]. apply N.leb_le in A, B. lia.
Qed.

Lemma digit_not_space c : is_digit c = true -> is_space c = false.
Proof.
  intros D. apply digit_range in D.
  unfold is_space, is_line_terminator, between, existsb.
  split_tests; reflexivity.
Qed.

Lemma digits_prefix_seen s :
  forall acc, (0 <= acc)%Z ->
    exists z, digits_prefix s acc true = Some z /\ (0 <= z)%Z.
Proof.
  induction s as [|c tl IH]; intros acc A; cbn [digits_prefix].
  - exists acc. auto.
  - destruct (is_digit c).
    + apply IH. unfold digit_value. lia.
    + exists acc. auto.
Qed.

(** [parseInt] of a string that starts with a digit is a natural number. *)
Lemma parseInt10_digits c tl :
  is_digit c = true ->
  exists z, parseInt10 (c :: tl) = num_of_Z z /\ (0 <= z)%Z.
Proof.
  intros D. unfold parseInt10. cbn [trimStart]. rewrite (digit_not_space c D).
  pose proof (digit_range c D) as Rg.
  destruct (N.eqb_spec c 45%N); [lia|]. destruct (N.eqb_spec c 43%N); [lia|].
  cbn [digits_prefix]. rewrite D.
  destruct (digits_prefix_seen tl (acc := (10 * 0 + digit_value c)%Z))
    as (z & E & Z0).
  { unfold digit_value. lia. }
  rewrite E. exists z. auto.
Qed.

(** The clamp and the division by 100 land in the unit interval. *)
Lemma score_of_digits w :
  forallb is_digit w = true -> 1 <= length w ->
  exists q, score_of_capture (Some w) = Fin q /\ (0 <= q)%Q /\ (q <= 1)%Q.
Proof.
  intros F L. destruct w as [|c tl]; [simpl in L; lia|].
  simpl in F. apply andb_true_iff in F. destruct F as [D _].
  destruct (@parseInt10_digits c tl D) as (z & E & Z0).
  unfold score_of_capture, parseInt10_capture. rewrite E.
  unfold num_of_Z, Math_max, Math_min, num_div100.
  assert (Q0 : Qle_bool (inject_Z 0) (inject_Z z) = true).
  { apply Qle_bool_iff. unfold Qle, inject_Z. simpl. lia. }
  rewrite Q0.
  destruct (Qle_bool (inject_Z 100) (inject_Z z)) eqn:Q100.
  - eexists. split; [reflexivity|]. split; unfold Qle; simpl; lia.
  - eexists. split; [reflexivity|].
    assert (z < 100)%Z.
    { destruct (Z_lt_le_dec z 100) as [Lt|Ge]; [exact Lt|].
      assert (Qle_bool (inject_Z 100) (inject_Z z) = true).
      { apply Qle_bool_iff. unfold Qle, inject_Z. simpl. lia. }
      congruence. }
    split; unfold Qle, Qdiv, Qmult, Qinv, inject_Z; simpl; lia.
Qed.

(** An anchored pattern can only match at the start of the input. *)
Lemma search_bol r rs :
  forall c pv, search_from (Cat Bol r) (c :: pv) rs = None.
Proof.
  induction rs as [|x tl IH]; intros c pv; simpl; [reflexivity|apply IH].
Qed.

Lemma exec_bol r s :
  exec (Cat Bol r) s = rmatch (Cat Bol r) (MState [] s []) (fun st => Some st).
Proof.
  unfold exec. destruct s as [|c tl]; simpl.
  - destruct (rmatch r (MState [] [] []) (fun st => Some st)); reflexivity.
  - destruct (rmatch r (MState [] (c :: tl) []) (fun st => Some st));
      [reflexivity|apply search_bol].
Qed.

Lemma re_yes_unfold :
  re_yes =
  Cat Bol (Cat (Cat (Char (ci_match 121%N)) (Cat (Char (ci_match 101%N))
                 (Cat (Char (ci_match 115%N)) Empty)))
               (Cat WordB Empty)).
Proof. reflexivity. Qed.

Lemma ci_s_is_word c : ci_match 115%N c = true -> is_word c = true.
Proof.
  unfold ci_match. change (ascii_upper 115%N) with 83%N.
  intros Hm. apply N.eqb_eq in Hm.
  assert (Two : c = 115%N \/ c = 83%N).
  { revert Hm. unfold ascii_upper, between.
    destruct (N.leb_spec 97 c), (N.leb_spec c 122); simpl; lia. }
  destruct Two; subst c; reflexivity.
Qed.

(** The verdict pattern is the token test of the specification. *)
Lemma test_re_yes s : test re_yes s = starts_with_yes_token s.
Proof.
  unfold test. rewrite re_yes_unfold, exec_bol.
  destruct s as [|y [|e [|s' tl]]]; simpl; try reflexivity.
  - destruct (ci_match 121%N y); reflexivity.
  - destruct (ci_match 121%N y); [|reflexivity].
    destruct (ci_match 101%N e); reflexivity.
  - destruct (ci_match 121%N y); [|reflexivity].
    destruct (ci_match 101%N e); [|reflexivity].
    destruct (ci_match 115%N s') eqn:S; [|reflexivity].
    unfold at_word_boundary. simpl. rewrite (ci_s_is_word s' S).
    destruct tl as [|c tl]; simpl; [reflexivity|].
    destruct (is_word c); reflexivity.
Qed.

End ScoreFacts.

(* ------------------------------------------------------------------ *)
(** ** The parser: the properties of the specification *)
(* ------------------------------------------------------------------ *)

Module ParserSpec.
Import JS Regex Parser Services Analysis Meaning.
Import RegexFacts ParserFacts ScoreFacts.

(** The extraction never raises the [TypeError]: a pattern that matched has
    recorded the capture the code reads. *)
Lemma extract_total content :
  exists reason score, extract content = Some (reason, score).
Proof.
  unfold extract. destruct (exec re_strict content) as [m|] eqn:E.
  - apply exec_sound in E. destruct E as (pv & rs & _ & M).
    destruct (strict_shape M) as ((r & C2) & _). rewrite C2.
    eexists; eexists; reflexivity.
  - destruct (exec re_reason content) as [m|] eqn:E'.
    + apply exec_sound in E'. destruct E' as (pv & rs & _ & M).
      destruct (reason_shape M) as (r & C1). rewrite C1.
      eexists; eexists; reflexivity.
    + eexists; eexists; reflexivity.
Qed.

(** The score of an extraction: in the unit interval when it is a number,
    and [null] exactly when the text has no percentage pattern. *)
Lemma extract_score content reason score :
  extract content = Some (reason, score) ->
  (forall x, score = Some x ->
             exists q, x = Fin q /\ (0 <= q)%Q /\ (q <= 1)%Q) /\
  (score = None <-> ~ has_percentage content).
Proof.
  unfold extract. destruct (exec re_strict content) as [m|] eqn:E.
  - apply exec_sound in E. destruct E as (pv & rs & S & M).
    destruct (strict_shape M) as ((r & C2) & (w & C3 & F & L) & P).
    rewrite C2, C3. intros H. inversion H; subst. split.
    + intros x X. inversion X; subst. apply score_of_digits; assumption.
    + split; [discriminate|]. intros N. contradiction.
  - intros H.
    assert (Sc : score = match exec re_score content with
                         | Some scoreMatch =>
                             Some (score_of_capture (capture 1 scoreMatch))
                         | None => None
                         end).
    { destruct (exec re_reason content) as [m|];
        [destruct (capture 1 m)|]; congruence. }
    clear H. destruct (exec re_score content) as [m|] eqn:E'.
    + pose proof E' as E2. apply exec_sound in E2.
      destruct E2 as (pv & rs & S & M).
      destruct (score_shape M) as ((w & C1 & F & L) & P).
      rewrite C1 in Sc. subst score content. split.
      * intros x X. inversion X; subst. apply score_of_digits; assumption.
      * split; [discriminate|]. intros N. contradiction.
    + subst score. split; [discriminate|].
      split; [intros _; apply exec_score_none; exact E'|reflexivity].
Qed.

Section AnyCaseTable.
Variable unicode_upper : code_unit -> jsstring.

Lemma parse_response_total content :
  exists v, parse_response unicode_upper content = Some v.
Proof.
  unfold parse_response.
  destruct (extract_total content) as (reason & score & E). rewrite E.
  eexists; reflexivity.
Qed.

(** C1. The two canonical replies parse to the verdicts of the
    specification: "Yes, Office supplies for business operations, 85%" gives
    a deductible verdict with that reason and score 0.85, "No, Personal
    entertainment expense, 95%" a non-deductible one with score 0.95; and the
    reason returned is always the extracted reason with its first code unit
    put in upper case, which leaves the empty reason empty. *)
Theorem parse_canonical_replies :
  parse_response unicode_upper
    (js "Yes, Office supplies for business operations, 85%")
  = Some (Verdict true (js "Office supplies for business operations")
                  (Some (Fin 0.85%Q))) /\
  parse_response unicode_upper (js "No, Personal entertainment expense, 95%")
  = Some (Verdict false (js "Personal entertainment expense")
                  (Some (Fin 0.95%Q))) /\
  (forall content,
      option_map deductible_reason (parse_response unicode_upper content)
      = option_map (fun p => capitalize unicode_upper (fst p))
                   (extract content)) /\
  capitalize unicode_upper (js "office supplies") = js "Office supplies" /\
  capitalize unicode_upper [] = [].
Proof.
  split; [vm_compute; reflexivity|].
  split; [vm_compute; reflexivity|].
  split; [|split; reflexivity].
  intros content. unfold parse_response.
  destruct (extract content) as [[reason score]|]; reflexivity.
Qed.

(** C2. Whenever the parser returns a score that is not [null], the score is
    a number between 0 and 1; a percentage of 150 is clamped to 100 before
    the division and gives exactly 1, on the strict path ("Yes, Travel,
    150%") and on the fallback path ("150%", which the strict pattern does
    not match). *)
Theorem score_within_unit_interval content v x :
  parse_response unicode_upper content = Some v ->
  deduction_score v = Some x ->
  (exists q, x = Fin q /\ (0 <= q)%Q /\ (q <= 1)%Q) /\
  (exec re_strict (js "Yes, Travel, 150%") <> None /\
   exists s, option_map deduction_score
               (parse_response unicode_upper (js "Yes, Travel, 150%"))
             = Some (Some s) /\ is_num s 1%Q) /\
  (exec re_strict (js "150%") = None /\
   exists s, option_map deduction_score
               (parse_response unicode_upper (js "150%"))
             = Some (Some s) /\ is_num s 1%Q).
Proof.
  intros P X. split; [|split].
  - unfold parse_response in P.
    destruct (extract content) as [[reason score]|] eqn:E; [|discriminate].
    inversion P; subst. simpl in X.
    apply (proj1 (@extract_score _ _ _ E)). exact X.
  - split; [vm_compute; discriminate|].
    eexists. split; [vm_compute; reflexivity|]. vm_compute. reflexivity.
  - split; [vm_compute; reflexivity|].
    eexists. split; [vm_compute; reflexivity|]. vm_compute. reflexivity.
Qed.

(** C3, as the code has it.  The reply "yes this seems fine 60%" is matched
    by the strict pattern, whose separator class takes the spaces: the
    verdict is deductible, the reason is "This seems fine" and the score is
    0.60. *)
Theorem seems_fine_reply_takes_strict_path :
  exec re_strict (js "yes this seems fine 60%") <> None /\
  parse_response unicode_upper (js "yes this seems fine 60%")
  = Some (Verdict true (js "This seems fine") (Some (Fin 0.60%Q))).
Proof.
  split; [vm_compute; discriminate|vm_compute; reflexivity].
Qed.

(** C6. The empty reply parses to a non-deductible verdict with the reason
    "No reason provided" and a [null] score. *)
Theorem parse_empty_reply :
  parse_response unicode_upper (js "")
  = Some (Verdict false (js "No reason provided") None).
Proof. vm_compute. reflexivity. Qed.

(** C7, as the code has it.  For every reply the parser returns a verdict
    whose boolean is true exactly when the reply, with the white space
    around it trimmed, starts with the token "yes" in any case (the three
    letters, then the end of the text or a code unit that is not a word
    character), and false otherwise. *)
Theorem is_deductible_iff_trimmed_yes_token content :
  exists v, parse_response unicode_upper content = Some v /\
            is_deductible v = starts_with_yes_token (trim content).
Proof.
  unfold parse_response.
  destruct (extract_total content) as (reason & score & E). rewrite E.
  eexists. split; [reflexivity|]. simpl. unfold isYes. apply test_re_yes.
Qed.

(** C8. Parsing never fails: for every reply there is a verdict, the score
    of which is [null] exactly when no percentage pattern occurs in the
    text; and whenever the completion call answers with that reply,
    [analyzeTransactionDeductibility] resolves to [success: true] with that
    verdict. *)
Theorem parse_never_fails content :
  exists v,
    parse_response unicode_upper content = Some v /\
    (deduction_score v = None <-> ~ has_percentage content) /\
    forall (institution : Type) (env : Env institution) h transaction,
      throws env h (ChatCompletion transaction) = None ->
      content_or_empty (completion_content env h transaction) = content ->
      analyzeTransactionDeductibility unicode_upper env transaction h
      = (Returned (Success v), ChatCompletion transaction :: h).
Proof.
  destruct (extract_total content) as (reason & score & E).
  exists (Verdict (isYes content) (capitalize unicode_upper reason) score).
  assert (P : parse_response unicode_upper content
              = Some (Verdict (isYes content)
                              (capitalize unicode_upper reason) score)).
  { unfold parse_response. rewrite E. reflexivity. }
  split; [exact P|]. split.
  - simpl. apply (proj2 (@extract_score _ _ _ E)).
  - intros institution env h transaction T C.
    unfold analyzeTransactionDeductibility, try_catch, bind, perform.
    rewrite T, C, P. reflexivity.
Qed.

End AnyCaseTable.

(** C2 at the reply "Yes, Office supplies, 85%". *)
Lemma score_within_unit_interval_witness :
  exists q, Fin 0.85%Q = Fin q /\ (0 <= q)%Q /\ (q <= 1)%Q.
Proof.
  exact (proj1 (@score_within_unit_interval plain_upper
                  (js "Yes, Office supplies, 85%")
                  (Verdict true (js "Office supplies") (Some (Fin 0.85%Q)))
                  (Fin 0.85%Q) eq_refl eq_refl)).
Defined.

(** C8 at the reply "No, Personal, 0%" of the concrete world. *)
Lemma parse_never_fails_witness :
  exists v,
    parse_response plain_upper (js "No, Personal, 0%") = Some v /\
    analyzeTransactionDeductibility
      plain_upper (Scenario.world false None)
      (prompt_of_row Scenario.stored_groceries) []
    = (Returned (Success v),
       [ChatCompletion (prompt_of_row Scenario.stored_groceries)]).
Proof.
  destruct (parse_never_fails plain_upper (js "No, Personal, 0%"))
    as (v & Parsed & _ & Resolves).
  exists v. split; [exact Parsed|].
  apply Resolves; reflexivity.
Defined.

(** C3 as the specification states it fails: the strict pattern does match
    "yes this seems fine 60%", and the reason is not the default one. *)
Lemma seems_fine_reply_is_not_fallback :
  ~ (exec re_strict (js "yes this seems fine 60%") = None /\
     option_map deductible_reason
       (parse_response plain_upper (js "yes this seems fine 60%"))
     = Some (js "No reason provided")).
Proof.
  intros [H _]. vm_compute in H. discriminate.
Qed.

(** The token must end after its three letters: "yesterday" and "yes_" are
    not deductible, "YES." and "yes-man" are. *)
Example yes_must_be_a_whole_word :
  map isYes [js "yesterday"; js "yes_"; js "YES."; js "yes-man"; js "no"]
  = [false; false; true; true; false].
Proof. vm_compute. reflexivity. Qed.

(** C7 as the specification states it fails: " yes", with a space in front,
    does not start with the token, and its verdict is true. *)
Lemma leading_space_yes_is_deductible :
  ~ (option_map is_deductible (parse_response plain_upper (js " yes"))
     = Some true
     <-> starts_with_yes_token (js " yes") = true).
Proof.
  intros [H _]. assert (T : starts_with_yes_token (js " yes") = true).
  { apply H. vm_compute. reflexivity. }
  vm_compute in T. discriminate.
Qed.

End ParserSpec.

(* ------------------------------------------------------------------ *)
(** ** Histories of the bank module *)
(* ------------------------------------------------------------------ *)

Module BankFacts.
Import JS Parser Services Users Analysis Plaid Observations.

Section WithEnv.
Variable institution : Type.
Variable env : Env institution.

Lemma perform_quiet A c (answer : history -> A) h :
  throws env h c = None ->
  perform env c answer h = (Returned (answer h), c :: h).
Proof. intros T. unfold perform. rewrite T. reflexivity. Qed.

Lemma advance_refl h : advance env h h 0 0 0.
Proof. unfold advance. repeat split; lia. Qed.

Lemma advance_trans h1 h2 h3 p f l p' f' l' :
  advance env h1 h2 p f l -> advance env h2 h3 p' f' l' ->
  advance env h1 h3 (p + p') (f + f') (l + l').
Proof. unfold advance. intros (A & B & C) (A' & B' & C'). repeat split; lia. Qed.

Lemma advance_eq h h' p f l p' f' l' :
  advance env h h' p f l -> p = p' -> f = f' -> l = l' ->
  advance env h h' p' f' l'.
Proof. intros H -> -> ->. exact H. Qed.

(** One more call: what it adds to the three tallies. *)
Lemma advance_call c h :
  advance env h (c :: h)
          (if is_addTransaction c then 1 else 0)
          (brought env h c)
          (if is_transactionsGet c then 1 else 0).
Proof.
  unfold advance, persisted, listings, count. simpl.
  destruct (is_addTransaction c), (is_transactionsGet c); simpl;
    repeat split; lia.
Qed.

Lemma advance_other c h :
  is_addTransaction c = false -> is_transactionsGet c = false ->
  advance env h (c :: h) 0 0 0.
Proof.
  intros A T. pose proof (advance_call c h) as H. rewrite A, T in H.
  replace (brought env h c) with 0 in H; [exact H|].
  destruct c; try reflexivity; discriminate.
Qed.

Lemma advance_others (p : call -> bool) d h :
  (forall c, p c = true ->
             is_addTransaction c = false /\ is_transactionsGet c = false) ->
  Forall (fun c => p c = true) d ->
  advance env h (d ++ h) 0 0 0.
Proof.
  intros P F. induction F as [|c d Hc F IH]; simpl.
  - apply advance_refl.
  - destruct (P c Hc) as [A T].
    apply (advance_trans IH (advance_other c (d ++ h) A T)).
Qed.

(** [getUser] only reads the [users] table, once or twice. *)
Lemma getUser_reads userId h :
  exists d, snd (getUser env userId h) = d ++ h /\
            Forall (fun c => is_user_read c = true) d.
Proof.
  unfold getUser, bind, attempt, perform, ret.
  destruct (throws env h (ServerUsersSelect userId)).
  - destruct (throws env (ServerUsersSelect userId :: h)
                     (ClientUsersSelect userId));
      exists [ClientUsersSelect userId; ServerUsersSelect userId];
      simpl; auto.
  - destruct (is_some (data (server_user env h userId))
              || negb (is_some (error (server_user env h userId))))%bool.
    + exists [ServerUsersSelect userId]. simpl. auto.
    + destruct (throws env (ServerUsersSelect userId :: h)
                       (ClientUsersSelect userId));
        exists [ClientUsersSelect userId; ServerUsersSelect userId];
        simpl; auto.
Qed.

Lemma user_read_harmless c :
  is_user_read c = true ->
  is_bank_call c = false /\ is_write c = false.
Proof. destruct c; simpl; intros H; try discriminate; auto. Qed.

Lemma user_read_uncounted c :
  is_user_read c = true ->
  is_addTransaction c = false /\ is_transactionsGet c = false.
Proof. destruct c; simpl; intros H; try discriminate; auto. Qed.

Lemma classification_uncounted c :
  is_classification c = true ->
  is_addTransaction c = false /\ is_transactionsGet c = false.
Proof. destruct c; simpl; intros H; try discriminate; auto. Qed.

Section Quiet.
Variable analyze : prompt_fields -> M (result verdict).
Hypothesis analyze_frame : only_classifies analyze.
Hypothesis quiet :
  forall h c, is_classification c = false -> throws env h c = None.

(** One transaction: whatever the classification does, one
    [addTransaction]. *)
Lemma store_transaction_advance accountId txn h :
  exists h', store_transaction env analyze accountId txn h = (Returned tt, h')
             /\ advance env h h' 1 0 0.
Proof.
  unfold store_transaction, bind, attempt, perform_.
  set (x := prompt_of (transactionData_of accountId txn)).
  destruct (analyze_frame x h) as (d & Hd & Fd).
  destruct (analyze x h) as [o h1]. simpl in Hd. subst h1.
  rewrite perform_quiet by (apply quiet; reflexivity).
  eexists. split; [reflexivity|].
  eapply advance_eq.
  - apply (advance_trans
             (advance_others _ h classification_uncounted Fd)
             (advance_call
                (AddTransaction
                   (with_analysis (transactionData_of accountId txn) o))
                (d ++ h))).
  - reflexivity.
  - reflexivity.
  - reflexivity.
Qed.

Lemma store_all_advance accountId txns :
  forall h, exists h',
    for_of txns (store_transaction env analyze accountId) h = (Returned tt, h')
    /\ advance env h h' (length txns) 0 0.
Proof.
  induction txns as [|txn tl IH]; intros h; simpl.
  - exists h. split; [reflexivity|apply advance_refl].
  - unfold bind.
    destruct (store_transaction_advance accountId txn h) as (h1 & E1 & A1).
    rewrite E1. destruct (IH h1) as (h2 & E2 & A2). rewrite E2.
    exists h2. split; [reflexivity|]. apply (advance_trans A1 A2).
Qed.

Lemma ensure_account_advance userId account h :
  exists h', ensure_account env userId account h = (Returned tt, h')
             /\ advance env h h' 0 0 0.
Proof.
  unfold ensure_account, bind, perform_.
  rewrite perform_quiet by (apply quiet; reflexivity).
  match goal with
  | |- context [if ?b then _ else _] => destruct b
  end.
  - eexists. split; [reflexivity|]. apply advance_other; reflexivity.
  - rewrite perform_quiet by (apply quiet; reflexivity).
    eexists. split; [reflexivity|].
    eapply advance_eq.
    + apply (advance_trans
               (advance_other (GetAccounts userId) h eq_refl eq_refl)
               (advance_other
                  (AddAccount (AccountRow (account_id account) userId))
                  (GetAccounts userId :: h) eq_refl eq_refl)).
    + reflexivity.
    + reflexivity.
    + reflexivity.
Qed.

Lemma ensure_all_advance userId accounts :
  forall h, exists h',
    for_of accounts (ensure_account env userId) h = (Returned tt, h')
    /\ advance env h h' 0 0 0.
Proof.
  induction accounts as [|a tl IH]; intros h; simpl.
  - exists h. split; [reflexivity|apply advance_refl].
  - unfold bind.
    destruct (ensure_account_advance userId a h) as (h1 & E1 & A1).
    rewrite E1. destruct (IH h1) as (h2 & E2 & A2). rewrite E2.
    exists h2. split; [reflexivity|]. apply (advance_trans A1 A2).
Qed.

(** One account: as many [addTransaction] calls as the listing brought
    back, and the running total grows by as much. *)
Lemma fetch_account_advance token total account h :
  exists h' n,
    fetch_account env analyze token total account h
    = (Returned (total + n), h')
    /\ advance env h h' n n 1.
Proof.
  unfold fetch_account, bind, perform_.
  rewrite perform_quiet by (apply quiet; reflexivity).
  set (resp := bank_transactions env h token (account_id account)).
  set (c := PlaidTransactionsGet token (account_id account)).
  assert (A0 : advance env h (c :: h) 0 (length (transactions resp)) 1).
  { pose proof (advance_call c h) as H. simpl in H.
    rewrite (quiet h c eq_refl) in H. exact H. }
  destruct (store_all_advance (account_id account) (transactions resp)
                              (c :: h)) as (h1 & E1 & A1).
  rewrite E1.
  destruct (truthy_string (request_id resp)) as [cursor|].
  - rewrite perform_quiet by (apply quiet; reflexivity).
    eexists. exists (length (transactions resp)). split; [reflexivity|].
    eapply advance_eq.
    + apply (advance_trans (advance_trans A0 A1)
               (advance_other (UpdateAccount (account_id account) cursor)
                              h1 eq_refl eq_refl)).
    + lia.
    + lia.
    + lia.
  - eexists. exists (length (transactions resp)). split; [reflexivity|].
    eapply advance_eq; [apply (advance_trans A0 A1)|lia..].
Qed.

Lemma fetch_all_advance token accounts :
  forall total h, exists h' n,
    for_of_acc accounts (fetch_account env analyze token) total h
    = (Returned (total + n), h')
    /\ advance env h h' n n (length accounts).
Proof.
  induction accounts as [|a tl IH]; intros total h; simpl.
  - exists h, 0. split; [unfold ret; f_equal; f_equal; lia|apply advance_refl].
  - unfold bind.
    destruct (fetch_account_advance token total a h) as (h1 & n1 & E1 & A1).
    rewrite E1. destruct (IH (total + n1) h1) as (h2 & n2 & E2 & A2).
    rewrite E2. exists h2, (n1 + n2). split.
    + f_equal. f_equal. lia.
    + apply (advance_trans A1 A2).
Qed.

End Quiet.
End WithEnv.

(** The classifier of the repository only classifies. *)
Lemma analyzeTransactionDeductibility_frame unicode_upper institution
    (env : Env institution) :
  only_classifies (analyzeTransactionDeductibility unicode_upper env).
Proof.
  intros x h. exists [ChatCompletion x].
  unfold analyzeTransactionDeductibility, try_catch, bind, perform, ret, throw.
  destruct (throws env h (ChatCompletion x)); simpl.
  - auto.
  - destruct (parse_response unicode_upper
                (content_or_empty (completion_content env h x))); simpl; auto.
Qed.

End BankFacts.

(* ------------------------------------------------------------------ *)
(** ** The bank module and the batch analysis: the properties of the
       specification *)
(* ------------------------------------------------------------------ *)

Module BankSpec.
Import JS Parser Services Users Analysis Plaid Observations Meaning Scenario.
Import BankFacts.

(** C4. When the user has a token and no call other than a classification
    throws, [fetchTransactions] resolves to [success: true] with a count
    equal to the number of transactions fetched from the bank, makes exactly
    that many [addTransaction] calls, and lists the transactions once for
    each account of the bank, whatever the classifications do: succeed,
    return a failure or throw. *)
Theorem ingestion_persists_every_fetched_transaction
    (institution : Type) (env : Env institution)
    (analyze : prompt_fields -> M (result verdict))
    (userId : jsstring) (h0 h1 : history) (r : db_result user)
    (token : jsstring) :
  only_classifies analyze ->
  (forall h c, is_classification c = false -> throws env h c = None) ->
  getUser env userId h0 = (Returned r, h1) ->
  token_of (data r) = Some token ->
  exists h2 total,
    fetchTransactions_with env analyze userId h0
    = (Returned (Success total), h2) /\
    fetched env h2 = fetched env h0 + total /\
    persisted h2 = persisted h0 + total /\
    listings h2 = listings h0 + length (bank_accounts env h1 token).
Proof.
  intros Frame Quiet Get Tok.
  destruct (getUser_reads env userId h0) as (d & Hd & Fd).
  rewrite Get in Hd. simpl in Hd. subst h1.
  pose proof (advance_others env _ h0 user_read_uncounted Fd) as A0.
  set (h1 := d ++ h0) in *.
  set (accounts := bank_accounts env h1 token).
  pose proof (advance_other env (PlaidAccountsGet token) h1 eq_refl eq_refl)
    as A1.
  destruct (ensure_all_advance env Quiet userId accounts
                               (PlaidAccountsGet token :: h1))
    as (h2 & E2 & A2).
  destruct (fetch_all_advance env Frame Quiet token accounts 0 h2)
    as (h3 & total & E3 & A3).
  exists h3, total. split.
  - unfold fetchTransactions_with, try_catch, bind.
    rewrite Get, Tok.
    rewrite perform_quiet by (apply Quiet; reflexivity).
    fold h1. fold accounts. rewrite E2, E3. reflexivity.
  - pose proof (advance_trans (advance_trans (advance_trans A0 A1) A2) A3)
      as (P & F & L).
    repeat split; lia.
Qed.

(** C5, as the code has it.  When [addTransaction] does not throw, a
    classification that returns a failure or throws does not stop the loop:
    the transaction is persisted as not deductible, with score 0 and the
    reason "Analysis failed - requires manual review" after a returned
    failure and "Analysis error - requires manual review" after a throw;
    and the loop over the transactions of an account always runs to its
    end. *)
Theorem classification_failure_is_swallowed
    (institution : Type) (env : Env institution)
    (analyze : prompt_fields -> M (result verdict)) :
  (forall h row, throws env h (AddTransaction row) = None) ->
  (forall accountId txn h o h',
      analyze (prompt_of (transactionData_of accountId txn)) h = (o, h') ->
      (forall v, o <> Returned (Success v)) ->
      exists row,
        store_transaction env analyze accountId txn h
        = (Returned tt, AddTransaction row :: h') /\
        row_trans_id row = transaction_id txn /\
        row_account_id row = accountId /\
        row_is_deductible row = Some false /\
        row_deduction_score row = Some (Some (Fin 0%Q)) /\
        row_deductible_reason row
        = Some (match o with
                | Thrown _ => js "Analysis error - requires manual review"
                | Returned _ => js "Analysis failed - requires manual review"
                end)) /\
  (forall accountId txns h,
      exists h',
        for_of txns (store_transaction env analyze accountId) h
        = (Returned tt, h')).
Proof.
  intros Add. split.
  - intros accountId txn h o h' Run Failed.
    exists (with_analysis (transactionData_of accountId txn) o). split.
    + unfold store_transaction, bind, attempt, perform_.
      rewrite Run. apply perform_quiet. apply Add.
    + destruct o as [[v|e]|e]; simpl.
      * exfalso. apply (Failed v). reflexivity.
      * repeat split; reflexivity.
      * repeat split; reflexivity.
  - intros accountId txns. induction txns as [|txn tl IH]; intros h; simpl.
    + exists h. reflexivity.
    + unfold bind at 1. unfold store_transaction, bind, attempt, perform_.
      destruct (analyze (prompt_of (transactionData_of accountId txn)) h)
        as [o h1].
      rewrite perform_quiet by apply Add.
      apply IH.
Qed.

(** C9. When [getUser] resolves to a result with no user or with a user
    whose token is missing or empty, each of [fetchTransactions],
    [getAccountBalances] and [getInstitutionInfo] resolves, without
    throwing, to [{ success: false, error: 'No Plaid token found' }], and
    the only calls made are the reads of the [users] table by [getUser]: no
    call to the bank API and no persistence write. *)
Theorem missing_token_is_a_typed_failure
    (institution : Type) (env : Env institution)
    (analyze : prompt_fields -> M (result verdict))
    (userId : jsstring) (h h1 : history) (r : db_result user) :
  getUser env userId h = (Returned r, h1) ->
  token_of (data r) = None ->
  fetchTransactions_with env analyze userId h
  = (Returned (Failure (Message (js "No Plaid token found"))), h1) /\
  getAccountBalances env userId h
  = (Returned (Failure (Message (js "No Plaid token found"))), h1) /\
  getInstitutionInfo env userId h
  = (Returned (Failure (Message (js "No Plaid token found"))), h1) /\
  exists d, h1 = d ++ h /\
            Forall (fun c => is_bank_call c = false /\ is_write c = false) d.
Proof.
  intros Get Tok. repeat split.
  - unfold fetchTransactions_with, try_catch, bind. rewrite Get, Tok.
    reflexivity.
  - unfold getAccountBalances, try_catch, bind. rewrite Get, Tok.
    reflexivity.
  - unfold getInstitutionInfo, try_catch, bind. rewrite Get, Tok.
    reflexivity.
  - destruct (getUser_reads env userId h) as (d & Hd & Fd).
    rewrite Get in Hd. simpl in Hd. exists d. split; [exact Hd|].
    apply (Forall_impl _ user_read_harmless Fd).
Qed.

(** C10. In the callback of [analyzeAllTransactions], when the
    classification succeeds with a score that is [null] or 0, the update
    sent for the transaction has [deduction_score] undefined and carries
    [is_deductible] and [deductible_reason]; applied to a stored row it sets
    these two and leaves the stored score as it was. *)
Theorem zero_or_null_score_is_not_written
    (unicode_upper : code_unit -> jsstring)
    (institution : Type) (env : Env institution)
    (transaction : transaction_row) (h : history) (v : verdict) :
  throws env h (ChatCompletion (prompt_of_row transaction)) = None ->
  parse_response unicode_upper
    (content_or_empty
       (completion_content env h (prompt_of_row transaction))) = Some v ->
  (deduction_score v = None \/
   exists q, deduction_score v = Some (Fin q) /\ (q == 0)%Q) ->
  exists updates,
    snd (analyzeAllTransactions_callback unicode_upper env transaction h)
    = UpdateTransaction (row_trans_id transaction) updates
      :: ChatCompletion (prompt_of_row transaction) :: h /\
    upd_deduction_score updates = None /\
    upd_is_deductible updates = Some (is_deductible v) /\
    upd_deductible_reason updates = Some (deductible_reason v) /\
    forall stored,
      row_deduction_score (apply_updates updates stored)
      = row_deduction_score stored /\
      row_is_deductible (apply_updates updates stored)
      = Some (is_deductible v) /\
      row_deductible_reason (apply_updates updates stored)
      = Some (deductible_reason v).
Proof.
  intros Quiet Parsed Score.
  assert (U : score_or_undefined (deduction_score v) = None).
  { destruct Score as [N|(q & S & Z)]; rewrite ?N, ?S; simpl; [reflexivity|].
    apply Qeq_bool_iff in Z. rewrite Z. reflexivity. }
  exists (updates_of v). split; [|split; [exact U|]].
  - unfold analyzeAllTransactions_callback, bind.
    unfold analyzeTransactionDeductibility, try_catch, bind, perform at 1.
    rewrite Quiet, Parsed. unfold ret at 1.
    unfold perform_, perform.
    destruct (throws env _ (UpdateTransaction _ _)); reflexivity.
  - split; [reflexivity|]. split; [reflexivity|].
    intros stored. unfold apply_updates. simpl. rewrite U. auto.
Qed.

(** C4 in the concrete world, with the completion service down: every
    classification fails. *)
Lemma ingestion_persists_every_fetched_transaction_witness :
  exists h2 total,
    fetchTransactions plain_upper (world true (Some (js "access-1")))
                      (js "u1") []
    = (Returned (Success total), h2) /\
    fetched (world true (Some (js "access-1"))) h2 = 0 + total /\
    persisted h2 = 0 + total /\
    listings h2 = 0 + 1.
Proof.
  apply (@ingestion_persists_every_fetched_transaction
           unit (world true (Some (js "access-1")))
           (analyzeTransactionDeductibility plain_upper
              (world true (Some (js "access-1"))))
           (js "u1") [] [ServerUsersSelect (js "u1")]
           (DbResult (Some (User (js "u1") (Some (js "access-1")))) None)
           (js "access-1")).
  - apply analyzeTransactionDeductibility_frame.
  - intros h c. destruct c; simpl; intros H; (reflexivity || discriminate).
  - reflexivity.
  - reflexivity.
Defined.

(** In that world the two transactions of the account are persisted. *)
Example ingestion_with_completion_down :
  fst (fetchTransactions plain_upper (world true (Some (js "access-1")))
                         (js "u1") [])
  = Returned (Success 2).
Proof. vm_compute. reflexivity. Qed.

(** C5 in the concrete world with the completion service down. *)
Lemma classification_failure_is_swallowed_witness :
  exists h',
    for_of [groceries; toner]
           (store_transaction
              (world true None)
              (analyzeTransactionDeductibility plain_upper (world true None))
              (js "acc-1")) []
    = (Returned tt, h').
Proof.
  apply (proj2 (@classification_failure_is_swallowed
                  unit (world true None)
                  (analyzeTransactionDeductibility plain_upper
                     (world true None))
                  (fun h row => eq_refl))).
Defined.

(** C5 as the specification states it fails: after a failed classification
    the persisted reason is not the string "requires manual review". *)
Lemma failed_classification_reason_is_longer :
  ~ (exists row h',
        store_transaction
          (world true None)
          (analyzeTransactionDeductibility plain_upper (world true None))
          (js "acc-1") groceries []
        = (Returned tt, AddTransaction row :: h') /\
        row_is_deductible row = Some false /\
        row_deductible_reason row = Some (js "requires manual review") /\
        row_deduction_score row = Some (Some (Fin 0%Q))).
Proof.
  intros (row & h' & E & _ & R & _).
  vm_compute in E. inversion E; subst. vm_compute in R. discriminate.
Qed.

(** C9 in the concrete world, for a user without a token. *)
Lemma missing_token_is_a_typed_failure_witness :
  fetchTransactions plain_upper (world false None) (js "u1") []
  = (Returned (Failure (Message (js "No Plaid token found"))),
     [ServerUsersSelect (js "u1")]) /\
  getAccountBalances (world false None) (js "u1") []
  = (Returned (Failure (Message (js "No Plaid token found"))),
     [ServerUsersSelect (js "u1")]) /\
  getInstitutionInfo (world false None) (js "u1") []
  = (Returned (Failure (Message (js "No Plaid token found"))),
     [ServerUsersSelect (js "u1")]) /\
  exists d, [ServerUsersSelect (js "u1")] = d ++ [] /\
            Forall (fun c => is_bank_call c = false /\ is_write c = false) d.
Proof.
  apply (@missing_token_is_a_typed_failure
           unit (world false None)
           (analyzeTransactionDeductibility plain_upper (world false None))
           (js "u1") [] [ServerUsersSelect (js "u1")]
           (DbResult (Some (User (js "u1") None)) None)
           eq_refl eq_refl).
Defined.

(** C10 in the concrete world: the reply "No, Personal, 0%" has score 0, and
    the stored score 0.70 of the row stays. *)
Lemma zero_or_null_score_is_not_written_witness :
  exists updates,
    snd (analyzeAllTransactions_callback plain_upper (world false None)
                                         stored_groceries [])
    = [UpdateTransaction (js "t1") updates;
       ChatCompletion (prompt_of_row stored_groceries)] /\
    upd_deduction_score updates = None /\
    row_deduction_score (apply_updates updates stored_groceries)
    = Some (Some (Fin 0.70%Q)) /\
    row_is_deductible (apply_updates updates stored_groceries) = Some false.
Proof.
  destruct (@zero_or_null_score_is_not_written
              plain_upper unit (world false None) stored_groceries []
              (Verdict false (js "Personal") (Some (Fin (0 # 100)%Q)))
              eq_refl eq_refl
              (or_intror (ex_intro _ (0 # 100)%Q (conj eq_refl eq_refl))))
    as (updates & Sent & Undefined & _ & _ & Stored).
  exists updates. split; [exact Sent|]. split; [exact Undefined|].
  destruct (Stored stored_groceries) as (Kept & Verdict' & _).
  split; [exact Kept|exact Verdict'].
Defined.

End BankSpec.

(* ------------------------------------------------------------------ *)
(** ** More on the parser: what the patterns demand of a reply *)
(* ------------------------------------------------------------------ *)

Unset Implicit Arguments.

Module ParserMore.
Import JS Regex Parser Services Analysis Meaning.
Import RegexFacts ParserFacts ScoreFacts ParserSpec.

Lemma trimStart_keeps u c v :
  is_space c = false -> trimStart (u ++ c :: v) = trimStart u ++ c :: v.
Proof.
  intros C. induction u as [|x u IH]; simpl.
  - rewrite C. reflexivity.
  - destruct (is_space x); [exact IH|reflexivity].
Qed.

(** [trimEnd] only touches what follows the last code unit that is not
    white space. *)
Lemma trimEnd_keeps p c t :
  is_space c = false -> trimEnd (p ++ c :: t) = p ++ c :: trimEnd t.
Proof.
  intros C. unfold trimEnd. rewrite rev_app_distr. simpl.
  rewrite <- app_assoc. simpl. rewrite (trimStart_keeps _ _ _ C).
  rewrite rev_app_distr. simpl. rewrite rev_involutive, <- app_assoc.
  reflexivity.
Qed.

Lemma percent_not_space : is_space percent = false.
Proof. reflexivity. Qed.

Lemma sep_not_word c : is_sep c = true -> is_word c = false.
Proof.
  unfold is_sep, comma. intros H. apply orb_true_iff in H.
  destruct H as [H|H].
  - apply N.eqb_eq in H. subst c. reflexivity.
  - destruct (is_word c) eqn:W; [|reflexivity]. exfalso.
    revert H W.
    unfold is_space, is_word, is_digit, is_line_terminator, between, existsb.
    split_tests; simpl; intros; discriminate.
Qed.

Lemma ci_letter p c :
  ci_match p c = true -> ascii_upper c = ascii_upper p.
Proof. unfold ci_match. apply N.eqb_eq. Qed.

Lemma letter_not_space c :
  (ascii_upper c = 89 \/ ascii_upper c = 78)%N -> is_space c = false.
Proof.
  unfold ascii_upper, between. intros H.
  assert (R : (65 <= c <= 122)%N).
  { revert H. destruct (N.leb_spec 97 c), (N.leb_spec c 122); simpl; lia. }
  unfold is_space, is_line_terminator, between, existsb.
  split_tests; reflexivity.
Qed.

Lemma Matches_char p a b :
  Matches (Char p) a b -> exists c, rest a = c :: rest b /\ p c = true.
Proof. intros (c & E & Hp & _). exists c. auto. Qed.

(** A match of the strict pattern starts at the first code unit, with the
    word "yes" or "no" in some case and then a separator. *)
Lemma strict_start content m :
  exec re_strict content = Some m ->
  exists word sep middle tail,
    content = word ++ sep :: middle ++ percent :: tail /\
    is_sep sep = true /\
    capture 1 m = Some word /\
    (map ascii_upper word = js "YES" \/ map ascii_upper word = js "NO").
Proof.
  intros E. apply exec_sound in E. destruct E as (pv & rs & S & M).
  destruct M as (m0 & [P0 E0] & M). subst m0. simpl in P0. subst pv.
  simpl in S. subst rs.
  destruct M as (m1 & (c1 & M1 & E1) & M).
  assert (W : exists word, content = word ++ rest c1 /\
                (map ascii_upper word = js "YES"
                 \/ map ascii_upper word = js "NO")).
  { destruct M1 as [M1|M1].
    - destruct M1 as (a1 & C1 & a2 & C2 & a3 & C3 & E3). simpl in E3. subst c1.
      apply Matches_char in C1, C2, C3.
      destruct C1 as (y & R1 & Y). destruct C2 as (e & R2 & Ee).
      destruct C3 as (s & R3 & Ss). simpl in R1.
      exists [y; e; s]. split.
      + rewrite R1, R2, R3. reflexivity.
      + left. simpl.
        rewrite (ci_letter _ _ Y), (ci_letter _ _ Ee), (ci_letter _ _ Ss).
        reflexivity.
    - destruct M1 as (a1 & C1 & a2 & C2 & E2). simpl in E2. subst c1.
      apply Matches_char in C1, C2.
      destruct C1 as (n & R1 & Nn). destruct C2 as (o & R2 & Oo).
      simpl in R1. exists [n; o]. split.
      + rewrite R1, R2. reflexivity.
      + right. simpl. rewrite (ci_letter _ _ Nn), (ci_letter _ _ Oo).
        reflexivity. }
  destruct W as (word & R1 & Word).
  assert (K1 : consumed (MState [] content []) c1 = word).
  { apply consumed_app. exact R1. }
  rewrite K1 in E1. subst m1.
  destruct M as (m2 & M2 & M). apply Matches_rep in M2.
  destruct M2 as (s1 & R2 & F2 & L2 & C2).
  destruct M as (m3 & M3 & M). apply Matches_cap_rep in M3.
  destruct M3 as (w2 & R3 & _ & _ & _ & C3).
  destruct M as (m4 & M4 & M). apply Matches_rep in M4.
  destruct M4 as (s2 & R4 & _ & _ & C4).
  destruct M as (m5 & M5 & M). apply Matches_cap_rep in M5.
  destruct M5 as (w3 & R5 & _ & _ & _ & C5).
  destruct M as (m6 & M6 & M). apply Matches_one in M6.
  destruct M6 as (R6 & C6). simpl in M. subst m.
  simpl in R2, C2.
  destruct s1 as [|sep s1]; [simpl in L2; lia|].
  simpl in F2. apply andb_true_iff in F2. destruct F2 as [Sep _].
  exists word, sep, (s1 ++ w2 ++ s2 ++ w3), (rest m6).
  split; [|split; [exact Sep|split; [|exact Word]]].
  - rewrite R1, R2, R3, R4, R5, R6. simpl.
    repeat rewrite <- app_assoc. reflexivity.
  - unfold capture. rewrite C6, C5, C4, C3, C2. reflexivity.
Qed.

Lemma isYes_of_strict_start word sep middle tail :
  is_sep sep = true ->
  (map ascii_upper word = js "YES" ->
   isYes (word ++ sep :: middle ++ percent :: tail) = true) /\
  (map ascii_upper word = js "NO" ->
   isYes (word ++ sep :: middle ++ percent :: tail) = false).
Proof.
  intros Sep. unfold isYes. rewrite test_re_yes. unfold trim.
  change (js "YES") with [89; 69; 83]%N. change (js "NO") with [78; 79]%N.
  split; intros W.
  - destruct word as [|y [|e [|s [|x word]]]]; simpl in W; try discriminate.
    inversion W as [[Y Ee Ss]].
    cbn [app trimStart]. rewrite (letter_not_space y (or_introl Y)).
    change (y :: e :: s :: sep :: middle ++ percent :: tail)
      with ((y :: e :: s :: sep :: middle) ++ percent :: tail).
    rewrite (trimEnd_keeps _ _ _ percent_not_space).
    cbn [app starts_with_yes_token].
    unfold ci_match. rewrite Y, Ee, Ss, (sep_not_word sep Sep). reflexivity.
  - destruct word as [|n [|o [|x word]]]; simpl in W; try discriminate.
    inversion W as [[Nn Oo]].
    cbn [app trimStart]. rewrite (letter_not_space n (or_intror Nn)).
    change (n :: o :: sep :: middle ++ percent :: tail)
      with ((n :: o :: sep :: middle) ++ percent :: tail).
    rewrite (trimEnd_keeps _ _ _ percent_not_space).
    cbn [app starts_with_yes_token].
    unfold ci_match. rewrite Nn. reflexivity.
Qed.

Section AnyCaseTable.
Variable unicode_upper : code_unit -> jsstring.

Lemma parse_response_fields content v :
  parse_response unicode_upper content = Some v ->
  exists reason score,
    extract content = Some (reason, score) /\
    v = Verdict (isYes content) (capitalize unicode_upper reason) score.
Proof.
  unfold parse_response.
  destruct (extract content) as [[reason score]|]; [|discriminate].
  intros H. inversion H. exists reason, score. auto.
Qed.

(** X1. A reply the strict pattern matches begins, at its very first code
    unit, with "yes" or "no" in some case followed by a comma or white
    space; that word is the first capture, and the verdict is deductible
    exactly when the word is "yes". *)
Theorem strict_reply_verdict_is_its_first_word content m v :
  exec re_strict content = Some m ->
  parse_response unicode_upper content = Some v ->
  exists word sep after,
    content = word ++ sep :: after /\
    is_sep sep = true /\
    capture 1 m = Some word /\
    ((map ascii_upper word = js "YES" /\ is_deductible v = true) \/
     (map ascii_upper word = js "NO" /\ is_deductible v = false)).
Proof.
  intros E P.
  destruct (strict_start content m E)
    as (word & sep & middle & tail & C & Sep & K & W).
  destruct (parse_response_fields content v P) as (reason & score & _ & V).
  exists word, sep, (middle ++ percent :: tail).
  split; [exact C|]. split; [exact Sep|]. split; [exact K|].
  subst v. simpl. rewrite C.
  destruct (isYes_of_strict_start word sep middle tail Sep) as [Yes No].
  destruct W as [W|W]; [left|right]; split; auto.
Qed.

End AnyCaseTable.

(** X1 at the reply "NO, Personal, 95%". *)
Lemma strict_reply_verdict_is_its_first_word_witness :
  exists word sep after,
    js "NO, Personal, 95%" = word ++ sep :: after /\
    is_sep sep = true /\
    Some (js "NO") = Some word /\
    ((map ascii_upper word = js "YES" /\ false = true) \/
     (map ascii_upper word = js "NO" /\ false = false)).
Proof.
  exact (strict_reply_verdict_is_its_first_word
           plain_upper (js "NO, Personal, 95%")
           (MState (rev (js "NO, Personal, 95%")) []
                   [(3, js "95"); (2, js "Personal"); (1, js "NO")])
           (Verdict false (js "Personal") (Some (Fin 0.95%Q)))
           eq_refl eq_refl).
Defined.

(** The score of a captured digit run is a whole number of hundredths. *)
Lemma score_of_digits_percent w :
  forallb is_digit w = true -> 1 <= length w ->
  exists k, score_of_capture (Some w) = Fin (inject_Z k / inject_Z 100)%Q /\
            (0 <= k <= 100)%Z.
Proof.
  intros F L. destruct w as [|c tl]; [simpl in L; lia|].
  simpl in F. apply andb_true_iff in F. destruct F as [D _].
  destruct (@parseInt10_digits c tl D) as (z & E & Z0).
  unfold score_of_capture, parseInt10_capture. rewrite E.
  unfold num_of_Z, Math_max, Math_min, num_div100.
  assert (Q0 : Qle_bool (inject_Z 0) (inject_Z z) = true).
  { apply Qle_bool_iff. unfold Qle, inject_Z. simpl. lia. }
  rewrite Q0.
  destruct (Qle_bool (inject_Z 100) (inject_Z z)) eqn:Q100.
  - exists 100%Z. split; [reflexivity|lia].
  - exists z. split; [reflexivity|].
    destruct (Z_lt_le_dec z 100) as [Lt|Ge]; [lia|].
    assert (Qle_bool (inject_Z 100) (inject_Z z) = true).
    { apply Qle_bool_iff. unfold Qle, inject_Z. simpl. lia. }
    congruence.
Qed.

Lemma not_percent_no_percentage content :
  forallb (fun c => negb (N.eqb c percent)) content = true ->
  ~ has_percentage content.
Proof.
  intros F (before & d & spaces & after & E & _ & _). subst content.
  rewrite forallb_app in F. apply andb_true_iff in F. destruct F as [_ F].
  simpl in F. apply andb_true_iff in F. destruct F as [_ F].
  rewrite forallb_app in F. apply andb_true_iff in F. destruct F as [_ F].
  vm_compute in F. discriminate.
Qed.

(** What a match of the fallback reason pattern reads: a comma, and a
    percent sign at its end. *)
Lemma reason_needs pv rs m :
  Matches re_reason (MState pv rs []) m ->
  exists a b c, rs = a ++ comma :: b ++ percent :: c.
Proof.
  intros M.
  destruct M as (m0 & [_ E0] & M). subst m0.
  destruct M as (m1 & M1 & M). apply Matches_rep in M1.
  destruct M1 as (w1 & R1 & _).
  destruct M as (m2 & M2 & M). apply Matches_one in M2. destruct M2 as (R2 & _).
  destruct M as (m3 & M3 & M). apply Matches_rest in M3. destruct M3 as (w3 & R3).
  destruct M as (m4 & M4 & M). apply Matches_rest in M4. destruct M4 as (w4 & R4).
  destruct M as (m5 & M5 & M). apply Matches_rest in M5. destruct M5 as (w5 & R5).
  destruct M as (m6 & M6 & M). apply Matches_rest in M6. destruct M6 as (w6 & R6).
  destruct M as (m7 & M7 & M). apply Matches_rest in M7. destruct M7 as (w7 & R7).
  destruct M as (m8 & M8 & M). apply Matches_one in M8. destruct M8 as (R8 & _).
  simpl in R1.
  exists w1, (w3 ++ w4 ++ w5 ++ w6 ++ w7), (rest m8).
  rewrite R1, R2, R3, R4, R5, R6, R7, R8.
  repeat rewrite <- app_assoc. reflexivity.
Qed.

Lemma forallb_split_at (p : code_unit -> bool) a x b :
  forallb p (a ++ x :: b) = true -> p x = true.
Proof.
  rewrite forallb_app. intros F. apply andb_true_iff in F.
  destruct F as [_ F]. simpl in F. apply andb_true_iff in F. tauto.
Qed.

Lemma default_reason_capitalized unicode_upper :
  capitalize unicode_upper (js "No reason provided") = js "No reason provided".
Proof. reflexivity. Qed.

Section AnyCaseTable2.
Variable unicode_upper : code_unit -> jsstring.

(** X2. A score that is not [null] is a whole number of hundredths: k/100
    for an integer k between 0 and 100. *)
Theorem score_is_a_whole_percentage content v x :
  parse_response unicode_upper content = Some v ->
  deduction_score v = Some x ->
  exists k, x = Fin (inject_Z k / inject_Z 100)%Q /\ (0 <= k <= 100)%Z.
Proof.
  intros P X.
  destruct (parse_response_fields unicode_upper content v P)
    as (reason & score & E & V).
  subst v. simpl in X. subst score. revert E. unfold extract.
  destruct (exec re_strict content) as [m|] eqn:S.
  - apply exec_sound in S. destruct S as (pv & rs & _ & M).
    destruct (@strict_shape pv rs m M) as ((r & C2) & (w & C3 & F & L) & _).
    rewrite C2, C3. intros H. inversion H.
    apply score_of_digits_percent; assumption.
  - destruct (exec re_score content) as [sm|] eqn:S'.
    + apply exec_sound in S'. destruct S' as (pv & rs & _ & M).
      destruct (@score_shape pv rs sm M) as ((w & C1 & F & L) & _).
      rewrite C1. intros H.
      assert (X : Some x = Some (score_of_capture (Some w))).
      { destruct (exec re_reason content) as [rm|];
          [destruct (capture 1 rm)|]; congruence. }
      inversion X. apply score_of_digits_percent; assumption.
    + intros H. exfalso.
      destruct (exec re_reason content) as [rm|];
        [destruct (capture 1 rm)|]; congruence.
Qed.

(** X3. A reply without a comma that the strict pattern rejects gets the
    default reason "No reason provided", whatever its score. *)
Theorem reply_without_comma_gets_default_reason content v :
  forallb not_comma content = true ->
  exec re_strict content = None ->
  parse_response unicode_upper content = Some v ->
  deductible_reason v = js "No reason provided".
Proof.
  intros NoComma Strict P.
  destruct (parse_response_fields unicode_upper content v P)
    as (reason & score & E & V).
  subst v. simpl. revert E. unfold extract. rewrite Strict.
  destruct (exec re_reason content) as [rm|] eqn:R.
  - exfalso. apply exec_sound in R. destruct R as (pv & rs & S & M).
    destruct (reason_needs pv rs rm M) as (a & b & c & Rs).
    subst content rs.
    rewrite forallb_app in NoComma. apply andb_true_iff in NoComma.
    destruct NoComma as [_ NoComma].
    apply forallb_split_at in NoComma.
    vm_compute in NoComma. discriminate.
  - intros H. inversion H. apply default_reason_capitalized.
Qed.

(** X4. A reply without a percent sign parses to the verdict of its first
    word, the default reason and a [null] score: none of the three
    extraction patterns can match it. *)
Theorem reply_without_percent_sign content :
  forallb (fun c => negb (N.eqb c percent)) content = true ->
  parse_response unicode_upper content
  = Some (Verdict (isYes content) (js "No reason provided") None).
Proof.
  intros NoPercent.
  pose proof (not_percent_no_percentage content NoPercent) as NoPattern.
  unfold parse_response, extract.
  destruct (exec re_strict content) as [m|] eqn:Strict.
  { exfalso. apply exec_sound in Strict.
    destruct Strict as (pv & rs & Split & M).
    subst content. apply NoPattern. apply (@strict_shape pv rs m M). }
  rewrite (proj2 (exec_score_none content) NoPattern).
  destruct (exec re_reason content) as [rm|] eqn:R.
  { exfalso. apply exec_sound in R. destruct R as (pv & rs & Split & M).
    destruct (reason_needs pv rs rm M) as (a & b & c & Rs).
    subst content rs.
    rewrite forallb_app in NoPercent. apply andb_true_iff in NoPercent.
    destruct NoPercent as [_ NoPercent].
    replace (a ++ comma :: b ++ percent :: c)
      with ((a ++ comma :: b) ++ percent :: c) in NoPercent
      by (rewrite <- app_assoc; reflexivity).
    apply forallb_split_at in NoPercent.
    vm_compute in NoPercent. discriminate. }
  rewrite default_reason_capitalized. reflexivity.
Qed.

End AnyCaseTable2.

(** X2 at the reply "Yes, Travel, 150%". *)
Lemma score_is_a_whole_percentage_witness :
  exists k, Fin (inject_Z 100 / inject_Z 100)%Q
            = Fin (inject_Z k / inject_Z 100)%Q /\ (0 <= k <= 100)%Z.
Proof.
  exact (score_is_a_whole_percentage
           plain_upper (js "Yes, Travel, 150%")
           (Verdict true (js "Travel")
                    (Some (Fin (inject_Z 100 / inject_Z 100)%Q)))
           (Fin (inject_Z 100 / inject_Z 100)%Q) eq_refl eq_refl).
Defined.

(** X3 at the reply "maybe 60%". *)
Lemma reply_without_comma_gets_default_reason_witness :
  js "No reason provided" = js "No reason provided".
Proof.
  exact (reply_without_comma_gets_default_reason
           plain_upper (js "maybe 60%")
           (Verdict false (js "No reason provided") (Some (Fin 0.60%Q)))
           eq_refl eq_refl eq_refl).
Defined.

(** X4 at the reply "Yes, probably". *)
Lemma reply_without_percent_sign_witness :
  parse_response plain_upper (js "Yes, probably")
  = Some (Verdict (isYes (js "Yes, probably")) (js "No reason provided") None).
Proof.
  exact (reply_without_percent_sign plain_upper (js "Yes, probably") eq_refl).
Defined.

End ParserMore.

(* ------------------------------------------------------------------ *)
(** ** More on [src/lib/openai/analysis.ts] *)
(* ------------------------------------------------------------------ *)

Module AnalysisMore.
Import JS Parser Services Analysis Batch Meaning Scenario Worlds.
Import ParserSpec.


(** X6. In the callback of [analyzeAllTransactions], a completion call that
    throws leaves the stored transaction alone: no [updateTransaction] is
    sent, and the failure is the callback's result. *)
Theorem failed_analysis_updates_nothing
    (unicode_upper : code_unit -> jsstring)
    (institution : Type) (env : Env institution)
    (transaction : transaction_row) (h : history) (e : thrown) :
  throws env h (ChatCompletion (prompt_of_row transaction)) = Some e ->
  analyzeAllTransactions_callback unicode_upper env transaction h
  = (Returned (Failure (Caught e)),
     ChatCompletion (prompt_of_row transaction) :: h).
Proof.
  intros T.
  unfold analyzeAllTransactions_callback, bind.
  unfold analyzeTransactionDeductibility, try_catch, bind, perform.
  rewrite T. reflexivity.
Qed.

(** X7. In the callback of [analyzeAllTransactions], a score that is a
    number other than 0 is sent as it is, and the update overwrites the
    stored score with it. *)
Theorem nonzero_score_is_written
    (unicode_upper : code_unit -> jsstring)
    (institution : Type) (env : Env institution)
    (transaction : transaction_row) (h : history) (v : verdict) (q : Q) :
  throws env h (ChatCompletion (prompt_of_row transaction)) = None ->
  parse_response unicode_upper
    (content_or_empty
       (completion_content env h (prompt_of_row transaction))) = Some v ->
  deduction_score v = Some (Fin q) ->
  ~ (q == 0)%Q ->
  snd (analyzeAllTransactions_callback unicode_upper env transaction h)
  = UpdateTransaction (row_trans_id transaction) (updates_of v)
    :: ChatCompletion (prompt_of_row transaction) :: h /\
  upd_deduction_score (updates_of v) = Some (Fin q) /\
  forall stored,
    row_deduction_score (apply_updates (updates_of v) stored)
    = Some (Some (Fin q)).
Proof.
  intros Quiet Parsed Score NonZero.
  assert (U : score_or_undefined (deduction_score v) = Some (Fin q)).
  { rewrite Score. simpl.
    destruct (Qeq_bool q 0) eqn:Z; [|reflexivity].
    exfalso. apply NonZero. apply Qeq_bool_iff. exact Z. }
  split; [|split].
  - unfold analyzeAllTransactions_callback, bind.
    unfold analyzeTransactionDeductibility, try_catch, bind, perform at 1.
    rewrite Quiet, Parsed. unfold ret at 1.
    unfold perform_, perform.
    destruct (throws env _ (UpdateTransaction _ _)); reflexivity.
  - exact U.
  - intros stored. unfold apply_updates. simpl. rewrite U. reflexivity.
Qed.

Section WithStorage.
Variable getTransactions : jsstring -> M (db_result (list transaction_row)).

(** X8. [analyzeAllTransactions] on a user without stored transactions
    ([data] is [null] or an empty array) answers 'No transactions found'
    and analyses nothing: the history is the one [getTransactions] left. *)
Theorem analyze_all_without_transactions
    (settle_all : list transaction_row -> M (list (result verdict)))
    (userId : jsstring) (h h1 : history)
    (r : db_result (list transaction_row)) :
  getTransactions userId h = (Returned r, h1) ->
  data r = None \/ data r = Some [] ->
  analyzeAllTransactions getTransactions settle_all userId h
  = (Returned (Failure (Message (js "No transactions found"))), h1).
Proof.
  intros Get Empty. unfold analyzeAllTransactions, try_catch, bind.
  rewrite Get. destruct Empty as [E|E]; rewrite E; reflexivity.
Qed.


(** X10. [generateTaxSummary] on a user without stored transactions answers
    'No transactions found' without asking for a summary: the history is the
    one [getTransactions] left. *)
Theorem tax_summary_without_transactions
    (num : Type) (zero : num) (plus : num -> num -> num)
    (of_amount : Q -> num)
    (summarize : summary_prompt num -> M (option jsstring))
    (userId : jsstring) (h h1 : history)
    (r : db_result (list transaction_row)) :
  getTransactions userId h = (Returned r, h1) ->
  data r = None \/ data r = Some [] ->
  generateTaxSummary getTransactions zero plus of_amount summarize userId h
  = (Returned (Failure (Message (js "No transactions found"))), h1).
Proof.
  intros Get Empty. unfold generateTaxSummary, try_catch, bind.
  rewrite Get. destruct Empty as [E|E]; rewrite E; reflexivity.
Qed.

End WithStorage.

(** X6 in the world whose completion service is down. *)
Lemma failed_analysis_updates_nothing_witness :
  analyzeAllTransactions_callback plain_upper (world true None)
                                  stored_groceries []
  = (Returned (Failure (Caught (ErrorObject (js "503")))),
     [ChatCompletion (prompt_of_row stored_groceries)]).
Proof.
  exact (failed_analysis_updates_nothing
           plain_upper unit (world true None) stored_groceries []
           (ErrorObject (js "503")) eq_refl).
Defined.

(** X7 in a world whose completion service answers "Yes, Supplies, 85%". *)
Lemma nonzero_score_is_written_witness :
  upd_deduction_score
    (updates_of (Verdict true (js "Supplies") (Some (Fin 0.85%Q))))
  = Some (Fin 0.85%Q) /\
  row_deduction_score
    (apply_updates
       (updates_of (Verdict true (js "Supplies") (Some (Fin 0.85%Q))))
       stored_groceries)
  = Some (Some (Fin 0.85%Q)).
Proof.
  assert (NonZero : ~ (0.85 == 0)%Q).
  { intros Z. unfold Qeq in Z. simpl in Z. discriminate Z. }
  destruct (nonzero_score_is_written
              plain_upper unit
              (world_with nothing_fails (js "Yes, Supplies, 85%") [] None)
              stored_groceries []
              (Verdict true (js "Supplies") (Some (Fin 0.85%Q)))
              0.85%Q eq_refl eq_refl eq_refl NonZero)
    as (_ & Sent & Stored).
  split; [exact Sent|exact (Stored stored_groceries)].
Defined.

(** X8 for a user whose query returns an empty array. *)
Lemma analyze_all_without_transactions_witness :
  analyzeAllTransactions
    (fun _ => ret (DbResult (Some []) None))
    (settle_in_request_order plain_upper (world false None))
    (js "u1") []
  = (Returned (Failure (Message (js "No transactions found"))), []).
Proof.
  exact (analyze_all_without_transactions
           (fun _ => ret (DbResult (Some []) None))
           (settle_in_request_order plain_upper (world false None))
           (js "u1") [] [] (DbResult (Some []) None)
           eq_refl (or_intror eq_refl)).
Defined.


(** X10 for a user whose query returns [null] data. *)
Lemma tax_summary_without_transactions_witness :
  generateTaxSummary
    (fun _ => ret (DbResult None (Some (js "PGRST301"))))
    0%Q Qplus (fun q => q)
    (fun _ => ret (Some (js "Nothing to report")))
    (js "u1") []
  = (Returned (Failure (Message (js "No transactions found"))), []).
Proof.
  exact (tax_summary_without_transactions
           (fun _ => ret (DbResult None (Some (js "PGRST301"))))
           Q 0%Q Qplus (fun q => q)
           (fun _ => ret (Some (js "Nothing to report")))
           (js "u1") [] [] (DbResult None (Some (js "PGRST301")))
           eq_refl (or_introl eq_refl)).
Defined.

End AnalysisMore.

(* ------------------------------------------------------------------ *)
(** ** More on the bank module and on [getUser] *)
(* ------------------------------------------------------------------ *)

Module BankMore.
Import JS Parser Services Users Analysis Plaid Observations Meaning.
Import Scenario Worlds BankFacts ParserSpec.

Lemma str_eqb_eq a b : str_eqb a b = true <-> a = b.
Proof.
  unfold str_eqb. destruct (list_eq_dec N.eq_dec a b); split; intros H;
    try reflexivity; try assumption; try discriminate; contradiction.
Qed.

Lemma or_default_not_empty o fallback :
  fallback <> [] -> or_default o fallback <> [].
Proof.
  intros F. unfold or_default, truthy_string.
  destruct o as [[|c tl]|]; try exact F. discriminate.
Qed.

Lemma with_analysis_assigns t o :
  exists d reason score,
    with_analysis t o = assign_verdict t d reason score.
Proof.
  destruct o as [[v|f]|e]; simpl; eexists; eexists; eexists; reflexivity.
Qed.

(** X11. Whatever the bank sends and whatever the classification does,
    every transaction is handed to [addTransaction] exactly once, right
    after its classification, as a row with the ids and date of the bank, a
    non-negative amount, a merchant name and a category that are not empty,
    and the three classification fields assigned. *)
Theorem persisted_row_is_normalised
    (institution : Type) (env : Env institution)
    (analyze : prompt_fields -> M (result verdict))
    (accountId : jsstring) (txn : plaid_transaction) (h : history) :
  exists row,
    snd (store_transaction env analyze accountId txn h)
    = AddTransaction row
      :: snd (analyze (prompt_of (transactionData_of accountId txn)) h) /\
    row_trans_id row = transaction_id txn /\
    row_account_id row = accountId /\
    row_date row = date txn /\
    (0 <= row_amount row)%Q /\
    row_merchant_name row <> [] /\
    row_category row <> [] /\
    row_is_deductible row <> None /\
    row_deductible_reason row <> None /\
    row_deduction_score row <> None.
Proof.
  unfold store_transaction, bind, attempt, perform_, perform.
  destruct (analyze (prompt_of (transactionData_of accountId txn)) h)
    as [o h1].
  exists (with_analysis (transactionData_of accountId txn) o). split.
  - destruct (throws env h1 _); reflexivity.
  - destruct (with_analysis_assigns (transactionData_of accountId txn) o)
      as (d & reason & score & E).
    rewrite E. simpl.
    repeat split; try reflexivity; try discriminate.
    + apply Qabs_nonneg.
    + apply or_default_not_empty. discriminate.
    + apply or_default_not_empty. discriminate.
Qed.

(** X12. With the classifier of the repository, the [catch] around the
    classification is never entered: the persisted row carries the parsed
    verdict when the completion call answers, and is the row of a returned
    failure ("Analysis failed - requires manual review", not deductible,
    score 0) when it throws. *)
Theorem ingestion_row_with_repository_classifier
    (unicode_upper : code_unit -> jsstring)
    (institution : Type) (env : Env institution)
    (accountId : jsstring) (txn : plaid_transaction) (h : history) :
  let t := transactionData_of accountId txn in
  exists row,
    snd (store_transaction env
           (analyzeTransactionDeductibility unicode_upper env)
           accountId txn h)
    = [AddTransaction row; ChatCompletion (prompt_of t)] ++ h /\
    match throws env h (ChatCompletion (prompt_of t)) with
    | Some _ =>
        row = assign_verdict t false
                (js "Analysis failed - requires manual review")
                (Some (Fin 0%Q))
    | None =>
        exists v,
          parse_response unicode_upper
            (content_or_empty (completion_content env h (prompt_of t)))
          = Some v /\
          row = assign_verdict t (is_deductible v) (deductible_reason v)
                               (deduction_score v)
    end.
Proof.
  intros t.
  unfold store_transaction, analyzeTransactionDeductibility.
  unfold try_catch, bind, attempt, perform_, perform, ret, throw.
  fold t.
  destruct (throws env h (ChatCompletion (prompt_of t))) as [e|].
  - exists (with_analysis t (Returned (Failure (Caught e)))).
    cbv beta iota. split; [|reflexivity].
    match goal with
    | |- context [throws env ?hh (AddTransaction ?rr)] =>
        destruct (throws env hh (AddTransaction rr))
    end; reflexivity.
  - destruct (parse_response_total unicode_upper
                (content_or_empty (completion_content env h (prompt_of t))))
      as (v & P).
    cbv beta iota. rewrite P.
    exists (with_analysis t (Returned (Success v))).
    cbv beta iota. split; [|exists v; split; reflexivity].
    match goal with
    | |- context [throws env ?hh (AddTransaction ?rr)] =>
        destruct (throws env hh (AddTransaction rr))
    end; reflexivity.
Qed.

(** X13. The first loop of [fetchTransactions] adds an account only when it
    is not stored yet: when the stored accounts of the user contain the
    account id, the only call is the read; otherwise the read is followed by
    one [addAccount] with that id and the user id. *)
Theorem account_is_added_only_when_unknown
    (institution : Type) (env : Env institution)
    (userId : jsstring) (account : plaid_account) (h : history) :
  throws env h (GetAccounts userId) = None ->
  (forall rows,
      data (stored_accounts env h userId) = Some rows ->
      In (account_id account) (map acc_account_id rows) ->
      ensure_account env userId account h
      = (Returned tt, GetAccounts userId :: h)) /\
  ((forall rows,
       data (stored_accounts env h userId) = Some rows ->
       ~ In (account_id account) (map acc_account_id rows)) ->
   snd (ensure_account env userId account h)
   = AddAccount (AccountRow (account_id account) userId)
     :: GetAccounts userId :: h).
Proof.
  intros Quiet.
  assert (Known : forall rows,
             existsb (fun acc => str_eqb (acc_account_id acc)
                                         (account_id account)) rows = true
             <-> In (account_id account) (map acc_account_id rows)).
  { intros rows. rewrite existsb_exists, in_map_iff. split.
    - intros (x & I & E). apply str_eqb_eq in E. exists x. auto.
    - intros (x & E & I). exists x. split; [exact I|].
      apply str_eqb_eq. exact E. }
  unfold ensure_account, bind, perform_.
  rewrite (perform_quiet env _ _ h Quiet).
  split.
  - intros rows D I. rewrite D. rewrite (proj2 (Known rows) I). reflexivity.
  - intros Unknown.
    destruct (data (stored_accounts env h userId)) as [rows|] eqn:D.
    + destruct (existsb _ rows) eqn:X.
      * exfalso. apply (Unknown rows eq_refl). apply Known. exact X.
      * unfold perform. destruct (throws env _ (AddAccount _)); reflexivity.
    + unfold perform. destruct (throws env _ (AddAccount _)); reflexivity.
Qed.

(** X14. When the listing of the bank accounts throws, no persistence write
    has been made, [fetchTransactions] answers with the message of the error
    ('Unknown error' when the thrown value is not an [Error]) and
    [getAccountBalances] answers with the thrown value itself. *)
Theorem failed_account_listing
    (institution : Type) (env : Env institution)
    (analyze : prompt_fields -> M (result verdict))
    (userId : jsstring) (h h1 : history) (r : db_result user)
    (token : jsstring) (e : thrown) :
  getUser env userId h = (Returned r, h1) ->
  token_of (data r) = Some token ->
  throws env h1 (PlaidAccountsGet token) = Some e ->
  fetchTransactions_with env analyze userId h
  = (Returned (Failure (Message (match e with
                                 | ErrorObject m => m
                                 | OtherValue _ => js "Unknown error"
                                 end))),
     PlaidAccountsGet token :: h1) /\
  getAccountBalances env userId h
  = (Returned (Failure (Caught e)), PlaidAccountsGet token :: h1) /\
  exists d, PlaidAccountsGet token :: h1 = d ++ h /\
            Forall (fun c => is_write c = false) d.
Proof.
  intros Get Tok Down. split; [|split].
  - unfold fetchTransactions_with, try_catch, bind, perform.
    rewrite Get, Tok, Down. destruct e; reflexivity.
  - unfold getAccountBalances, try_catch, bind, perform.
    rewrite Get, Tok, Down. reflexivity.
  - destruct (getUser_reads env userId h) as (d & Hd & Fd).
    rewrite Get in Hd. simpl in Hd. subst h1.
    exists (PlaidAccountsGet token :: d). split; [reflexivity|].
    constructor; [reflexivity|].
    apply (Forall_impl _ (fun c Hc => proj2 (user_read_harmless c Hc)) Fd).
Qed.

(** X15. [getInstitutionInfo] for an item without an institution id answers
    'No institution ID found' after the single call that reads the item: the
    institution is not looked up. *)
Theorem item_without_institution
    (institution : Type) (env : Env institution)
    (userId : jsstring) (h h1 : history) (r : db_result user)
    (token : jsstring) :
  getUser env userId h = (Returned r, h1) ->
  token_of (data r) = Some token ->
  throws env h1 (PlaidItemGet token) = None ->
  truthy_string (bank_item_institution env h1 token) = None ->
  getInstitutionInfo env userId h
  = (Returned (Failure (Message (js "No institution ID found"))),
     PlaidItemGet token :: h1).
Proof.
  intros Get Tok Quiet Missing.
  unfold getInstitutionInfo, try_catch, bind, perform.
  rewrite Get, Tok, Quiet, Missing. reflexivity.
Qed.

(** X17. [getUser] never surfaces a failure of the server-side client: a
    server result with data, or without error, is returned after that single
    read; when the server-side client throws, or answers with an error and
    no data, the module's own client is asked and its answer, or what it
    throws, is the result. *)
Theorem getUser_falls_back_to_the_regular_client
    (institution : Type) (env : Env institution)
    (userId : jsstring) (h : history) :
  let server := ServerUsersSelect userId in
  let regular := ClientUsersSelect userId in
  let served := server_user env h userId in
  let usable :=
    match throws env h server with
    | Some _ => false
    | None => (is_some (data served) || negb (is_some (error served)))%bool
    end in
  if usable
  then getUser env userId h = (Returned served, [server] ++ h)
  else getUser env userId h
       = (match throws env (server :: h) regular with
          | Some e => Thrown e
          | None => Returned (client_user env (server :: h) userId)
          end,
          [regular; server] ++ h).
Proof.
  intros server regular served usable. subst usable served server regular.
  unfold getUser, bind, attempt, perform, ret.
  destruct (throws env h (ServerUsersSelect userId)).
  - destruct (throws env _ (ClientUsersSelect userId)); reflexivity.
  - destruct (is_some (data (server_user env h userId))
              || negb (is_some (error (server_user env h userId))))%bool.
    + reflexivity.
    + destruct (throws env _ (ClientUsersSelect userId)); reflexivity.
Qed.

Section Partial.
Variable institution : Type.
Variable env : Env institution.
Variable analyze : prompt_fields -> M (result verdict).
Variable token bad : jsstring.
Variable e : thrown.
Hypothesis frame : only_classifies analyze.
Hypothesis calm :
  forall h c, is_classification c = false ->
              c <> PlaidTransactionsGet token bad ->
              throws env h c = None.
Hypothesis broken :
  forall h, throws env h (PlaidTransactionsGet token bad) = Some e.

Lemma calm_store_one accountId txn h :
  exists h', store_transaction env analyze accountId txn h = (Returned tt, h')
             /\ advance env h h' 1 0 0.
Proof.
  unfold store_transaction, bind, attempt, perform_.
  set (x := prompt_of (transactionData_of accountId txn)).
  destruct (frame x h) as (d & Hd & Fd).
  destruct (analyze x h) as [o h1]. simpl in Hd. subst h1.
  rewrite perform_quiet by (apply calm; [reflexivity|discriminate]).
  eexists. split; [reflexivity|].
  eapply advance_eq.
  - apply (advance_trans
             (advance_others env _ h classification_uncounted Fd)
             (advance_call env
                (AddTransaction
                   (with_analysis (transactionData_of accountId txn) o))
                (d ++ h))).
  - reflexivity.
  - reflexivity.
  - reflexivity.
Qed.

Lemma calm_store_all accountId txns :
  forall h, exists h',
    for_of txns (store_transaction env analyze accountId) h = (Returned tt, h')
    /\ advance env h h' (length txns) 0 0.
Proof.
  induction txns as [|txn tl IH]; intros h; simpl.
  - exists h. split; [reflexivity|apply advance_refl].
  - unfold bind.
    destruct (calm_store_one accountId txn h) as (h1 & E1 & A1).
    rewrite E1. destruct (IH h1) as (h2 & E2 & A2). rewrite E2.
    exists h2. split; [reflexivity|].
    apply (advance_trans A1 A2).
Qed.

Lemma calm_ensure_all userId accounts :
  forall h, exists h',
    for_of accounts (ensure_account env userId) h = (Returned tt, h')
    /\ advance env h h' 0 0 0.
Proof.
  induction accounts as [|a tl IH]; intros h; simpl.
  - exists h. split; [reflexivity|apply advance_refl].
  - unfold bind at 1. unfold ensure_account at 1. unfold bind, perform_.
    rewrite perform_quiet by (apply calm; [reflexivity|discriminate]).
    match goal with
    | |- context [if ?b then _ else _] => destruct b
    end.
    + destruct (IH (GetAccounts userId :: h)) as (h2 & E2 & A2).
      unfold ret at 1. rewrite E2. exists h2. split; [reflexivity|].
      eapply advance_eq.
      * apply (advance_trans
                 (advance_other env (GetAccounts userId) h eq_refl eq_refl)
                 A2).
      * reflexivity.
      * reflexivity.
      * reflexivity.
    + rewrite perform_quiet by (apply calm; [reflexivity|discriminate]).
      destruct (IH (AddAccount (AccountRow (account_id a) userId)
                    :: GetAccounts userId :: h)) as (h2 & E2 & A2).
      rewrite E2. exists h2. split; [reflexivity|].
      eapply advance_eq.
      * apply (advance_trans
                 (advance_trans
                    (advance_other env (GetAccounts userId) h eq_refl eq_refl)
                    (advance_other env
                       (AddAccount (AccountRow (account_id a) userId))
                       (GetAccounts userId :: h) eq_refl eq_refl))
                 A2).
      * reflexivity.
      * reflexivity.
      * reflexivity.
Qed.

Lemma calm_fetch_good total account h :
  account_id account <> bad ->
  exists h' n,
    fetch_account env analyze token total account h
    = (Returned (total + n), h')
    /\ advance env h h' n n 1.
Proof.
  intros Good.
  assert (Other : PlaidTransactionsGet token (account_id account)
                  <> PlaidTransactionsGet token bad).
  { intros E. inversion E. contradiction. }
  unfold fetch_account, bind, perform_.
  rewrite perform_quiet by (apply calm; [reflexivity|exact Other]).
  set (resp := bank_transactions env h token (account_id account)).
  set (c := PlaidTransactionsGet token (account_id account)).
  assert (A0 : advance env h (c :: h) 0 (length (transactions resp)) 1).
  { pose proof (advance_call env c h) as H. simpl in H.
    rewrite (calm h c eq_refl Other) in H. exact H. }
  destruct (calm_store_all (account_id account) (transactions resp)
                           (c :: h)) as (h1 & E1 & A1).
  rewrite E1.
  destruct (truthy_string (request_id resp)) as [cursor|].
  - rewrite perform_quiet by (apply calm; [reflexivity|discriminate]).
    eexists. exists (length (transactions resp)). split; [reflexivity|].
    eapply advance_eq.
    + apply (advance_trans
               (advance_trans A0 A1)
               (advance_other env
                  (UpdateAccount (account_id account) cursor)
                  h1 eq_refl eq_refl)).
    + lia.
    + lia.
    + lia.
  - eexists. exists (length (transactions resp)). split; [reflexivity|].
    eapply advance_eq;
      [apply (advance_trans A0 A1)|lia..].
Qed.

Lemma broken_fetch total account h :
  account_id account = bad ->
  fetch_account env analyze token total account h
  = (Thrown e, PlaidTransactionsGet token bad :: h)
  /\ advance env h (PlaidTransactionsGet token bad :: h) 0 0 1.
Proof.
  intros Bad. unfold fetch_account, bind, perform. rewrite Bad, broken.
  split; [reflexivity|].
  pose proof (advance_call env (PlaidTransactionsGet token bad) h) as H.
  simpl in H. rewrite broken in H. exact H.
Qed.

(** The second loop stops at the account whose listing throws, with
    everything fetched before it persisted. *)
Lemma broken_loop before account after :
  Forall (fun a => account_id a <> bad) before ->
  account_id account = bad ->
  forall total h, exists h' n,
    for_of_acc (before ++ account :: after)
               (fetch_account env analyze token) total h
    = (Thrown e, h')
    /\ advance env h h' n n (length before + 1).
Proof.
  intros Good Bad. induction Good as [|a before Ha Good IH];
    intros total h; simpl.
  - unfold bind.
    destruct (broken_fetch total account h Bad) as (E & A).
    rewrite E. eexists. exists 0. split; [reflexivity|exact A].
  - unfold bind at 1.
    destruct (calm_fetch_good total a h Ha) as (h1 & n1 & E1 & A1).
    rewrite E1. destruct (IH (total + n1) h1) as (h2 & n2 & E2 & A2).
    rewrite E2. exists h2, (n1 + n2). split; [reflexivity|].
    eapply advance_eq;
      [apply (advance_trans A1 A2)|lia..].
Qed.

End Partial.

(** X16. There is no rollback: when the listing of the transactions of one
    account throws (and nothing else but classifications does),
    [fetchTransactions] answers with the failure and no count, while every
    transaction fetched for the accounts before that one has been
    persisted. *)
Theorem failed_listing_keeps_earlier_transactions
    (institution : Type) (env : Env institution)
    (analyze : prompt_fields -> M (result verdict))
    (userId : jsstring) (h0 h1 : history) (r : db_result user)
    (token bad : jsstring) (e : thrown)
    (before after : list plaid_account) (account : plaid_account) :
  only_classifies analyze ->
  (forall h c, is_classification c = false ->
               c <> PlaidTransactionsGet token bad ->
               throws env h c = None) ->
  (forall h, throws env h (PlaidTransactionsGet token bad) = Some e) ->
  getUser env userId h0 = (Returned r, h1) ->
  token_of (data r) = Some token ->
  bank_accounts env h1 token = before ++ account :: after ->
  Forall (fun a => account_id a <> bad) before ->
  account_id account = bad ->
  exists h2 n,
    fetchTransactions_with env analyze userId h0
    = (Returned (Failure (Message (message_of e))), h2) /\
    fetched env h2 = fetched env h0 + n /\
    persisted h2 = persisted h0 + n /\
    listings h2 = listings h0 + length before + 1.
Proof.
  intros Frame Calm Broken Get Tok Accounts Good Bad.
  destruct (getUser_reads env userId h0) as (d & Hd & Fd).
  rewrite Get in Hd. simpl in Hd. subst h1.
  pose proof (advance_others env _ h0 user_read_uncounted Fd) as A0.
  set (h1 := d ++ h0) in *.
  pose proof (advance_other env (PlaidAccountsGet token) h1 eq_refl eq_refl)
    as A1.
  destruct (calm_ensure_all institution env token bad Calm userId
              (before ++ account :: after) (PlaidAccountsGet token :: h1))
    as (h2 & E2 & A2).
  destruct (broken_loop institution env analyze token bad e Frame Calm Broken
              before account after Good Bad 0 h2)
    as (h3 & n & E3 & A3).
  exists h3, n. split.
  - unfold fetchTransactions_with, try_catch, bind.
    rewrite Get, Tok.
    rewrite perform_quiet by (apply Calm; [reflexivity|discriminate]).
    fold h1. rewrite Accounts, E2, E3. reflexivity.
  - pose proof (advance_trans
                  (advance_trans
                     (advance_trans A0 A1) A2) A3)
      as (P & F & L).
    repeat split; lia.
Qed.

(** X13 in the concrete world, where no account is stored yet. *)
Lemma account_is_added_only_when_unknown_witness :
  snd (ensure_account (world false None) (js "u1")
                      (PlaidAccount (js "acc-1")) [])
  = [AddAccount (AccountRow (js "acc-1") (js "u1")); GetAccounts (js "u1")].
Proof.
  apply (proj2 (account_is_added_only_when_unknown
                  unit (world false None) (js "u1")
                  (PlaidAccount (js "acc-1")) [] eq_refl)).
  intros rows E. inversion E. simpl. tauto.
Defined.

(** X14 in a world whose bank refuses to list the accounts. *)
Lemma failed_account_listing_witness :
  fetchTransactions plain_upper
    (world_with accounts_listing_fails (js "No, Personal, 0%")
                two_accounts None)
    (js "u1") []
  = (Returned (Failure (Message (js "ECONNRESET"))),
     [PlaidAccountsGet (js "access-1"); ServerUsersSelect (js "u1")]).
Proof.
  apply (proj1 (failed_account_listing
                  unit
                  (world_with accounts_listing_fails (js "No, Personal, 0%")
                              two_accounts None)
                  (analyzeTransactionDeductibility plain_upper
                     (world_with accounts_listing_fails
                                 (js "No, Personal, 0%") two_accounts None))
                  (js "u1") [] [ServerUsersSelect (js "u1")]
                  (DbResult (Some (User (js "u1") (Some (js "access-1"))))
                            None)
                  (js "access-1") bank_down eq_refl eq_refl eq_refl)).
Defined.

(** X15 in a world whose item has no institution id. *)
Lemma item_without_institution_witness :
  getInstitutionInfo
    (world_with nothing_fails (js "No, Personal, 0%") two_accounts None)
    (js "u1") []
  = (Returned (Failure (Message (js "No institution ID found"))),
     [PlaidItemGet (js "access-1"); ServerUsersSelect (js "u1")]).
Proof.
  exact (item_without_institution
           unit
           (world_with nothing_fails (js "No, Personal, 0%") two_accounts None)
           (js "u1") [] [ServerUsersSelect (js "u1")]
           (DbResult (Some (User (js "u1") (Some (js "access-1")))) None)
           (js "access-1") eq_refl eq_refl eq_refl eq_refl).
Defined.

(** X16 in a world with two accounts, the listing of the second of which
    throws. *)
Lemma failed_listing_keeps_earlier_transactions_witness :
  exists h2 n,
    fetchTransactions plain_upper
      (world_with second_listing_fails (js "No, Personal, 0%")
                  two_accounts None)
      (js "u1") []
    = (Returned (Failure (Message (js "ECONNRESET"))), h2) /\
    fetched (world_with second_listing_fails (js "No, Personal, 0%")
                        two_accounts None) h2 = 0 + n /\
    persisted h2 = 0 + n /\
    listings h2 = 0 + 1 + 1.
Proof.
  apply (failed_listing_keeps_earlier_transactions
           unit
           (world_with second_listing_fails (js "No, Personal, 0%")
                       two_accounts None)
           (analyzeTransactionDeductibility plain_upper
              (world_with second_listing_fails (js "No, Personal, 0%")
                          two_accounts None))
           (js "u1") [] [ServerUsersSelect (js "u1")]
           (DbResult (Some (User (js "u1") (Some (js "access-1")))) None)
           (js "access-1") (js "acc-2") bank_down
           [PlaidAccount (js "acc-1")] [] (PlaidAccount (js "acc-2"))).
  - apply analyzeTransactionDeductibility_frame.
  - intros h c Class Other. destruct c; try reflexivity.
    simpl. unfold second_listing_fails.
    destruct (str_eqb access_token (js "access-1")) eqn:T;
      [|reflexivity].
    destruct (str_eqb accountId (js "acc-2")) eqn:A; [|reflexivity].
    exfalso. apply Other.
    apply str_eqb_eq in T. apply str_eqb_eq in A. rewrite T, A. reflexivity.
  - intros h. reflexivity.
  - reflexivity.
  - reflexivity.
  - reflexivity.
  - constructor; [|constructor]. intros E. vm_compute in E. discriminate E.
  - reflexivity.
Defined.

(** In that world the two transactions of the first account are persisted
    although the call reports a failure. *)
Example two_transactions_persisted_before_the_failure :
  persisted
    (snd (fetchTransactions plain_upper
            (world_with second_listing_fails (js "No, Personal, 0%")
                        two_accounts None)
            (js "u1") []))
  = 2.
Proof. vm_compute. reflexivity. Qed.

End BankMore.

(* ------------------------------------------------------------------ *)
(** ** The route handlers: what they answer *)
(* ------------------------------------------------------------------ *)

Module RoutesSpec.
Import JS Services Routes.

(** X18. The transactions route without a user id (the parameter is missing
    or empty) answers 400 'User ID is required' and does not query the
    storage. *)
Theorem transactions_route_requires_user_id
    (env : RouteEnv) (userId : option jsstring) (h : route_history) :
  truthy_string userId = None ->
  GET env userId h
  = (Returned (Json 400 (TransactionsError (js "User ID is required"))), h).
Proof.
  intros Missing. unfold GET, htry. rewrite Missing. reflexivity.
Qed.

(** X19. The transactions route never throws and answers with status 200,
    400 or 500; it answers 200 only when a user id was given, the storage
    query did not throw and reported no error, and the body is then the
    stored list, or the empty list when the data is [null]. *)
Theorem transactions_route_answers
    (env : RouteEnv) (userId : option jsstring) (h : route_history) :
  exists resp h',
    GET env userId h = (Returned resp, h') /\
    (status resp = 200 \/ status resp = 400 \/ status resp = 500) /\
    (status resp = 200 ->
     exists uid,
       truthy_string userId = Some uid /\
       h' = GetTransactions uid :: h /\
       route_throws env h (GetTransactions uid) = None /\
       error (queried_transactions env h uid) = None /\
       body resp
       = TransactionsFound
           (match data (queried_transactions env h uid) with
            | Some l => l
            | None => []
            end)).
Proof.
  unfold GET, htry, hbind, call_out, hret.
  destruct (truthy_string userId) as [uid|].
  - destruct (route_throws env h (GetTransactions uid)) as [e|] eqn:T.
    + eexists. eexists. split; [reflexivity|]. split; [auto|].
      simpl. intros H. discriminate H.
    + destruct (error (queried_transactions env h uid)) as [err|] eqn:E.
      * eexists. eexists. split; [reflexivity|]. split; [auto|].
        simpl. intros H. discriminate H.
      * eexists. eexists. split; [reflexivity|]. split; [auto|].
        intros _. exists uid. repeat split; auto.
  - eexists. eexists. split; [reflexivity|]. split; [auto|].
    simpl. intros H. discriminate H.
Qed.

(** X20. The token exchange route, when the request lacks the public token
    or the user id (missing or empty), answers 400 without calling the bank
    or the storage. *)
Theorem exchange_route_requires_both_fields
    (env : RouteEnv) (h : route_history) :
  route_throws env h ReadRequestJson = None ->
  truthy_string (req_public_token (request_json env h)) = None \/
  truthy_string (req_userId (request_json env h)) = None ->
  POST env h
  = (Returned
       (Json 400 (ExchangeError (js "Public token and user ID are required"))),
     ReadRequestJson :: h).
Proof.
  intros Quiet Missing. unfold POST, htry, hbind, call_out.
  rewrite Quiet.
  destruct Missing as [M|M].
  - rewrite M. reflexivity.
  - rewrite M.
    destruct (truthy_string (req_public_token (request_json env h)));
      reflexivity.
Qed.

(** X21. When no call throws, the token exchange route answers 200 with the
    access token, the item id and the accounts whether or not the token
    could be saved; the upsert into [user_profiles] is attempted exactly
    when the update of [users] reports an error. *)
Theorem exchange_route_answers_even_when_unsaved
    (env : RouteEnv) (h : route_history) (public_token userId : jsstring) :
  (forall h' c, route_throws env h' c = None) ->
  truthy_string (req_public_token (request_json env h)) = Some public_token ->
  truthy_string (req_userId (request_json env h)) = Some userId ->
  let h1 := ReadRequestJson :: h in
  let token := exchanged env h1 public_token in
  let h2 := ItemPublicTokenExchange public_token :: h1 in
  let h3 := CreateServerClient :: AccountsGet (access_token token) :: h2 in
  let h4 := UsersUpdateToken userId (access_token token) :: h3 in
  POST env h
  = (Returned
       (Json 200
          (Connected (access_token token) (item_id token)
                     (listed_accounts env h2 (access_token token)))),
     match users_update_error env h3 userId (access_token token) with
     | Some _ => ProfilesUpsertToken userId (access_token token) :: h4
     | None => h4
     end).
Proof.
  intros Quiet Pt Uid h1 token h2 h3 h4.
  unfold POST, htry, hbind, call_out.
  repeat rewrite Quiet. rewrite Pt, Uid.
  repeat rewrite Quiet.
  fold h1. fold token. fold h2. fold h3.
  destruct (users_update_error env h3 userId (access_token token));
    repeat rewrite Quiet; reflexivity.
Qed.

(** X22. The token exchange route never throws and never shows the
    underlying error: it answers 400 with its fixed message, 500 'Failed to
    exchange public token', or 200 with a token. *)
Theorem exchange_route_answers (env : RouteEnv) (h : route_history) :
  exists resp h',
    POST env h = (Returned resp, h') /\
    (resp = Json 400
              (ExchangeError (js "Public token and user ID are required")) \/
     resp = Json 500 (ExchangeError (js "Failed to exchange public token")) \/
     exists token item accounts,
       resp = Json 200 (Connected token item accounts)).
Proof.
  unfold POST, htry, hbind, call_out, hret.
  repeat match goal with
         | |- context [route_throws env ?hh ?c] =>
             destruct (route_throws env hh c)
         | |- context [truthy_string ?o] => destruct (truthy_string o)
         | |- context [users_update_error env ?hh ?u ?t] =>
             destruct (users_update_error env hh u t)
         end;
    eexists; eexists; (split; [reflexivity|]); eauto 6.
Qed.

(** X18 for a request with an empty [userId] parameter. *)
Lemma transactions_route_requires_user_id_witness :
  GET (calm false false (ExchangeRequest None None)) (Some []) []
  = (Returned (Json 400 (TransactionsError (js "User ID is required"))), []).
Proof.
  exact (transactions_route_requires_user_id
           (calm false false (ExchangeRequest None None)) (Some []) []
           eq_refl).
Defined.

(** X19 for a user whose query returns [null] data and no error. *)
Lemma transactions_route_answers_witness :
  exists resp h',
    GET (calm false false (ExchangeRequest None None)) (Some (js "u1")) []
    = (Returned resp, h') /\
    status resp = 200 /\
    body resp = TransactionsFound [].
Proof.
  destruct (transactions_route_answers
              (calm false false (ExchangeRequest None None))
              (Some (js "u1")) [])
    as (resp & h' & Run & _ & Ok).
  exists resp, h'. split; [exact Run|].
  assert (S : status resp = 200).
  { vm_compute in Run. inversion Run. reflexivity. }
  split; [exact S|].
  destruct (Ok S) as (uid & U & _ & _ & _ & B).
  inversion U. subst uid. exact B.
Defined.

(** X20 for a request without a user id. *)
Lemma exchange_route_requires_both_fields_witness :
  POST (calm false false (ExchangeRequest (Some (js "public-1")) None)) []
  = (Returned
       (Json 400 (ExchangeError (js "Public token and user ID are required"))),
     [ReadRequestJson]).
Proof.
  exact (exchange_route_requires_both_fields
           (calm false false (ExchangeRequest (Some (js "public-1")) None)) []
           eq_refl (or_intror eq_refl)).
Defined.

(** X21 in a world where both saves report an error. *)
Lemma exchange_route_answers_even_when_unsaved_witness :
  POST (calm true true
             (ExchangeRequest (Some (js "public-1")) (Some (js "u1")))) []
  = (Returned
       (Json 200 (Connected (js "access-1") (js "item-1")
                            [PlaidAccount (js "acc-1")])),
     [ProfilesUpsertToken (js "u1") (js "access-1");
      UsersUpdateToken (js "u1") (js "access-1");
      CreateServerClient;
      AccountsGet (js "access-1");
      ItemPublicTokenExchange (js "public-1");
      ReadRequestJson]).
Proof.
  exact (exchange_route_answers_even_when_unsaved
           (calm true true
                 (ExchangeRequest (Some (js "public-1")) (Some (js "u1"))))
           [] (js "public-1") (js "u1")
           (fun _ _ => eq_refl) eq_refl eq_refl).
Defined.

End RoutesSpec.

(* ------------------------------------------------------------------ *)
(** ** The handlers of the protected page: saving and navigating *)
(* ------------------------------------------------------------------ *)

Module PageSpec.
Import JS Page.

Lemma id_eqb_eq a b : str_eqb a b = true <-> a = b.
Proof.
  unfold str_eqb. destruct (list_eq_dec N.eq_dec a b); split; intros H;
    try reflexivity; try assumption; try discriminate; contradiction.
Qed.

Lemma id_eqb_refl a : str_eqb a a = true.
Proof. apply id_eqb_eq. reflexivity. Qed.

Lemma id_eqb_neq a b : a <> b -> str_eqb a b = false.
Proof.
  intros N. destruct (str_eqb a b) eqn:E; [|reflexivity].
  apply id_eqb_eq in E. contradiction.
Qed.

(** The updater, read along the list: the first transaction with the id is
    replaced, and the new one is appended when there is none. *)
Lemma save_into_nil t : save_into t [] = [t].
Proof. reflexivity. Qed.

Lemma save_into_cons t x tl :
  save_into t (x :: tl)
  = if same_id t x then t :: tl else x :: save_into t tl.
Proof.
  unfold save_into. simpl. destruct (same_id t x); [reflexivity|].
  destruct (findIndex (same_id t) tl); reflexivity.
Qed.

(** The index [findIndex] returns is within the array. *)
Lemma findIndex_in_range (A : Type) (p : A -> bool) l :
  forall i, findIndex p l = Some i -> i < length l.
Proof.
  induction l as [|x tl IH]; intros i H; simpl in H; [discriminate|].
  destruct (p x).
  - inversion H. simpl. lia.
  - destruct (findIndex p tl) as [j|]; [|discriminate].
    inversion H. simpl. specialize (IH j eq_refl). lia.
Qed.

Lemma ids_after_save t l i :
  In i (map id (save_into t l)) -> i = id t \/ In i (map id l).
Proof.
  induction l as [|x tl IH].
  - simpl. intros [H|[]]. left. symmetry. exact H.
  - rewrite save_into_cons. destruct (same_id t x) eqn:S.
    + simpl. intros [H|H]; [left; symmetry; exact H|right; right; exact H].
    + simpl. intros [H|H]; [right; left; exact H|].
      destruct (IH H) as [E|I]; [left; exact E|right; right; exact I].
Qed.

(** X23. Saving a transaction keeps the length of the list when a
    transaction with its id is there, and grows it by one otherwise; the
    sequence of ids is kept in the first case and gets the new id at its end
    in the second. *)
Theorem save_replaces_or_appends t prev :
  match find_by_id (id t) prev with
  | Some _ =>
      length (save_into t prev) = length prev /\
      map id (save_into t prev) = map id prev
  | None =>
      length (save_into t prev) = S (length prev) /\
      map id (save_into t prev) = map id prev ++ [id t]
  end.
Proof.
  induction prev as [|x tl IH].
  - simpl. auto.
  - rewrite save_into_cons. unfold find_by_id in *. simpl.
    unfold same_id. destruct (str_eqb (id x) (id t)) eqn:S.
    + apply id_eqb_eq in S. simpl. rewrite S. auto.
    + destruct (find (fun t0 => str_eqb (id t0) (id t)) tl);
        destruct IH as [L I]; simpl; rewrite L, I; auto.
Qed.

(** X24. After a save, looking the id of the saved transaction up gives the
    saved transaction. *)
Theorem saved_transaction_is_found t prev :
  find_by_id (id t) (save_into t prev) = Some t.
Proof.
  induction prev as [|x tl IH].
  - unfold find_by_id. simpl. rewrite id_eqb_refl. reflexivity.
  - rewrite save_into_cons. unfold same_id.
    destruct (str_eqb (id x) (id t)) eqn:S.
    + unfold find_by_id. simpl. rewrite id_eqb_refl. reflexivity.
    + unfold find_by_id in *. simpl. rewrite S. exact IH.
Qed.

(** X25. A save does not touch the transactions with another id: looking
    any other id up gives what it gave before. *)
Theorem save_leaves_other_ids t prev i :
  i <> id t ->
  find_by_id i (save_into t prev) = find_by_id i prev.
Proof.
  intros Other. induction prev as [|x tl IH].
  - unfold find_by_id. simpl.
    rewrite (id_eqb_neq (id t) i) by (intros E; apply Other; symmetry; exact E).
    reflexivity.
  - rewrite save_into_cons. unfold same_id.
    destruct (str_eqb (id x) (id t)) eqn:S.
    + apply id_eqb_eq in S. unfold find_by_id. simpl.
      rewrite (id_eqb_neq (id t) i)
        by (intros E; apply Other; symmetry; exact E).
      rewrite S.
      rewrite (id_eqb_neq (id t) i)
        by (intros E; apply Other; symmetry; exact E).
      reflexivity.
    + unfold find_by_id in *. simpl.
      destruct (str_eqb (id x) i); [reflexivity|exact IH].
Qed.

(** X26. Saving the same transaction twice is saving it once. *)
Theorem save_is_idempotent t prev :
  save_into t (save_into t prev) = save_into t prev.
Proof.
  induction prev as [|x tl IH].
  - rewrite save_into_nil, save_into_cons. unfold same_id.
    rewrite id_eqb_refl. reflexivity.
  - rewrite save_into_cons. destruct (same_id t x) eqn:S.
    + rewrite save_into_cons. unfold same_id. rewrite id_eqb_refl.
      reflexivity.
    + rewrite save_into_cons, S, IH. reflexivity.
Qed.

(** X27. A list in which no two transactions share an id stays so through
    every save. *)
Theorem save_keeps_ids_unique t prev :
  NoDup (map id prev) -> NoDup (map id (save_into t prev)).
Proof.
  induction prev as [|x tl IH]; intros U.
  - simpl. constructor; [intros []|constructor].
  - rewrite save_into_cons. unfold same_id.
    destruct (str_eqb (id x) (id t)) eqn:S.
    + apply id_eqb_eq in S. simpl in *. rewrite <- S. exact U.
    + simpl in *. inversion U as [|y l Nin U']. subst.
      constructor; [|apply IH; exact U'].
      intros I. apply ids_after_save in I. destruct I as [E|I].
      * rewrite E, id_eqb_refl in S. discriminate.
      * contradiction.
Qed.

Lemma name_differs name known :
  ~ In name known_names -> In known known_names -> str_eqb name known = false.
Proof.
  intros Out I. apply id_eqb_neq. intros E. subst. contradiction.
Qed.

(** X28. [handleNavigate] never changes the list of transactions, ignores a
    name it does not know, clears the transaction being edited exactly for
    the names 'categorize' and 'add-expense', and never leads to the screen
    'edit-expense' from another screen. *)
Theorem navigation_is_confined name st :
  transactions (handleNavigate name st) = transactions st /\
  (~ In name known_names -> handleNavigate name st = st) /\
  editingTransaction (handleNavigate name st)
  = (if (str_eqb name (js "categorize")
         || str_eqb name (js "add-expense"))%bool
     then None else editingTransaction st) /\
  (currentScreen (handleNavigate name st) = edit_expense ->
   currentScreen st = edit_expense).
Proof.
  split; [|split; [|split]].
  - unfold handleNavigate, go.
    repeat match goal with
           | |- context [str_eqb name ?k] => destruct (str_eqb name k)
           end; reflexivity.
  - intros Out. unfold handleNavigate.
    repeat rewrite (name_differs name _ Out)
      by (unfold known_names; simpl; tauto).
    reflexivity.
  - unfold handleNavigate, go.
    destruct (str_eqb name (js "settings")) eqn:S1.
    { apply id_eqb_eq in S1. subst name. reflexivity. }
    destruct (str_eqb name (js "dashboard")) eqn:S2.
    { apply id_eqb_eq in S2. subst name. reflexivity. }
    destruct (str_eqb name (js "debug")) eqn:S3.
    { apply id_eqb_eq in S3. subst name. reflexivity. }
    destruct (str_eqb name (js "categorize") || str_eqb name (js "add-expense"))%bool;
      [reflexivity|].
    repeat match goal with
           | |- context [str_eqb name ?k] => destruct (str_eqb name k)
           end; reflexivity.
  - unfold handleNavigate, go.
    repeat match goal with
           | |- context [str_eqb name ?k] => destruct (str_eqb name k)
           end; simpl; intros H; try discriminate H; exact H.
Qed.

(** X25 for a save of the first transaction and a look-up of the second. *)
Lemma save_leaves_other_ids_witness :
  find_by_id (js "2") (save_into staples [staples; adobe])
  = find_by_id (js "2") [staples; adobe].
Proof.
  apply (save_leaves_other_ids staples [staples; adobe] (js "2")).
  intros E. vm_compute in E. discriminate E.
Defined.

(** X27 for a save of the second transaction into a list with the first. *)
Lemma save_keeps_ids_unique_witness :
  NoDup (map id (save_into adobe [staples])).
Proof.
  apply (save_keeps_ids_unique adobe [staples]).
  constructor; [intros []|constructor].
Defined.

(** X28 for the name 'profile', which [handleNavigate] does not know. *)
Lemma navigation_is_confined_witness :
  handleNavigate (js "profile") (PageState transactions_screen (Some adobe)
                                           [staples; adobe])
  = PageState transactions_screen (Some adobe) [staples; adobe].
Proof.
  apply (proj1 (proj2 (navigation_is_confined
                         (js "profile")
                         (PageState transactions_screen (Some adobe)
                                    [staples; adobe])))).
  intros I. vm_compute in I.
  repeat (destruct I as [I|I]; [discriminate I|]). exact I.
Defined.

End PageSpec.
